(** * mpl_interactions.pyplot: a shallow embedding and its properties

    The development follows [src/mpl_interactions/pyplot.py].

    - Numbers (axis limits, bin edges, heights) are rationals [Q];
      comparisons are the ones of [Qcompare], so there is no NaN.
    - The Python objects that the module reads and writes live in an
      explicit [World]: the axes that [gogogo_figure] hands back, the
      artists the module creates on it (the line, the patch collection,
      the scatter collections, the image), the scatter cache, the
      controls object with its params mapping, and a log of the calls
      made on the axes, the figure, the controls and the helper
      functions.  The params mapping is one shared dict: it is read
      through the world wherever the source passes or unpacks [params].
    - Every operation runs in a state-and-exception monad [M].  An
      exception keeps the state reached so far.  The model raises where
      the module itself does: its [raise] statements, a subscript or a
      key that is missing, a keyword passed twice, [min] and [max] of an
      empty array.  Failures inside
      matplotlib, numpy, the helper modules or the user's functions are
      not modelled.
    - What the collaborators compute (the data limits of [relim], the
      limits autoscaling picks, [np.histogram], [str.format], the
      backend test, ...) is taken as section variables: the properties
      hold for every choice.  The functions of [helpers.py] and
      [controller.py] whose behaviour matters ([eval_xy],
      [callable_else_value], [gogogo_controls], [register_function], the
      change handler of the controls) are not among the sources; their
      definitions say [Modelled from the spec]. *)

From Stdlib Require Import QArith Qminmax Ascii String.
From stdpp Require Import gmap strings list pretty.

Set Warnings "-register-all".

Local Open Scope Q_scope.

(** ** Python values *)

(** A numeric numpy array: its shape and its elements in row-major order. *)
Record ndarray := mk_ndarray { shape : list nat; flat : list Q }.

Definition ndim (a : ndarray) : nat := length (shape a).

(** Plain data: everything that is not callable. *)
Inductive Data :=
| DNone
| DBool (b : bool)
| DNum (q : Q)
| DStr (s : string)
| DArr (a : ndarray)
| DList (l : list Data)
| DTuple (l : list Data)
| DObjArr (l : list Data).

(** The params mapping: parameter name to its live value. *)
Abbreviation Params := (gmap string Data).

(** A user function.  It is called with positional arguments and with the
    params mapping unpacked as keyword arguments ([f(x, **params)]), so
    it sees a copy of the mapping; [fn_id] is the identity of the
    function object (the scatter cache is keyed by it). *)
Record Callable := mk_callable {
  fn_id : nat;
  fn_call : list Data -> Params -> Data }.

(** An argument that is "array-like or scalar or function";
    [isinstance(arg, Callable)] is a match on [AFun]. *)
Inductive Arg :=
| AVal (d : Data)
| AFun (f : Callable).

(** [isinstance(arg, str)] *)
Definition is_str (a : Arg) : bool :=
  match a with AVal (DStr _) => true | _ => false end.

(** [xlim] / [ylim]: "string or tuple of floats". *)
Inductive Lim :=
| LimStr (s : string)
| LimTuple (lo hi : Q).

Definition lim_is_str (l : Lim) : bool :=
  match l with LimStr _ => true | LimTuple _ _ => false end.

(** [lim == "..."]: a tuple never equals a string. *)
Definition lim_eq_str (l : Lim) (s : string) : bool :=
  match l with LimStr v => bool_decide (v = s) | LimTuple _ _ => false end.

(** [str.lower()] on ASCII text. *)
Definition ascii_lower (c : ascii) : ascii :=
  let n := nat_of_ascii c in
  if (Nat.leb 65 n && Nat.leb n 90)%bool then ascii_of_nat (n + 32) else c.

Fixpoint lower (s : string) : string :=
  match s with
  | EmptyString => EmptyString
  | String c s' => String (ascii_lower c) (lower s')
  end.

(** ** Exceptions and results *)

Inductive Exn :=
| ValueError (msg : string)
| IndexError
| KeyError
| TypeError.

Inductive Res (A : Type) :=
| Ok (a : A)
| Raise (e : Exn).
Arguments Ok {A} a.
Arguments Raise {A} e.

Definition is_ok {A} (r : Res A) : bool :=
  match r with Ok _ => true | Raise _ => false end.


#[global] Instance Res_ret : MRet Res := fun _ a => Ok a.
#[global] Instance Res_bind : MBind Res := fun _ _ k r =>
  match r with Ok a => k a | Raise e => Raise e end.

(** ** Comparisons on numbers *)

(** [a < b] and [a > b] as Python evaluates them on numbers. *)
Definition Qltb (a b : Q) : bool :=
  match a ?= b with Lt => true | _ => false end.
Definition Qgtb (a b : Q) : bool :=
  match a ?= b with Gt => true | _ => false end.

(** [arr.min()] and [arr.max()]: numpy raises ValueError on an empty array. *)
Definition array_min (l : list Q) : Res Q :=
  match l with
  | [] => Raise (ValueError "zero-size array to reduction operation minimum which has no identity")
  | x :: l' => Ok (foldl (fun m y => if Qltb y m then y else m) x l')
  end.

Definition array_max (l : list Q) : Res Q :=
  match l with
  | [] => Raise (ValueError "zero-size array to reduction operation maximum which has no identity")
  | x :: l' => Ok (foldl (fun m y => if Qgtb y m then y else m) x l')
  end.

(** [l[i]] for [0 <= i]: IndexError out of range. *)
Definition index (l : list Q) (i : nat) : Res Q :=
  match l !! i with Some x => Ok x | None => Raise IndexError end.

(** ** matplotlib objects *)

Record Bbox := mk_bbox { x0 : Q; y0 : Q; width : Q; height : Q }.

(** [matplotlib.patches.Rectangle(xy, width=, height=)] *)
Record Rectangle := mk_rectangle {
  rect_xy : Q * Q; rect_width : Q; rect_height : Q }.

(** The part of an axes object that the module reads and writes. *)
Record Axes := mk_axes {
  ax_xlim : Q * Q;
  ax_ylim : Q * Q;
  ax_dataLim : Bbox;
  ax_autoscalex_on : bool;
  ax_autoscaley_on : bool;
  ax_title : string }.

(** [Line2D]: [xdata = None] stands for the default [range(len(y))]. *)
Record Line2D := mk_line { xdata : option Data; ydata : Data }.

(** The collection that [ax.scatter] returns. *)
Record PathCollection := mk_scat {
  sc_offsets : Data * Data;
  sc_facecolor : Data;
  sc_edgecolor : Data;
  sc_sizes : Data;
  sc_alpha : Data;
  sc_label : Arg }.

(** The image that [ax.imshow] returns, with its [norm.vmin], [norm.vmax]. *)
Record AxesImage := mk_image {
  im_data : Data;
  norm_vmin : Data;
  norm_vmax : Data }.

(** ** Closures registered as update callbacks

    Each [update] function of the module is a closure; its captured
    variables are collected in a record, and [Callback] names which
    [update] it is. *)

Record PlotEnv := mk_plot_env {
  p_x_and_y : bool;
  p_x : Arg;
  p_y : Arg;
  p_xlim : Lim;
  p_ylim : Lim;
  p_title : option string }.

Record HistEnv := mk_hist_env {
  h_funcs : list Callable;
  h_density : Data;
  h_bins : Data;
  h_weights : Data }.

Record ScatterEnv := mk_scatter_env {
  s_title : option string;
  s_X : list Arg;
  s_Y : list Arg;
  s_cols : list Arg;
  s_sizes : list Arg;
  s_edgecolors : list Arg;
  s_alphas : list Arg;
  s_stretch_x : bool;
  s_stretch_y : bool }.

Record ImshowEnv := mk_imshow_env {
  i_title : option string;
  i_X : Arg;
  i_autoscale_cmap : bool;
  i_vmin : Arg;
  i_vmax : Arg }.

Inductive Callback :=
| plot_update (e : PlotEnv)
| hist_update (e : HistEnv)
| scatter_update (e : ScatterEnv)
| imshow_update (e : ImshowEnv).

(** ** The call log: calls made on the axes, the figure, the controls
    object and the helper functions, in program order. *)
Inductive Call :=
| notebook_backend_call
| gogogo_figure_call (ipympl ax_given : bool)
| create_slider_format_dict_call (slider_formats : Data) (use_ipywidgets : bool)
| gogogo_controls_call (kwargs : Params) (controls_given display_controls : bool)
| register_function_call (f : Callback) (names : list string)
| plot_call (x : option Data) (y : Data) (fmt : option Arg) (plot_kwargs : Params)
| relim_call
| autoscale_view_call (scalex scaley : bool)
| set_xlim_call (lims : Q * Q)
| set_ylim_call (lims : Q * Q)
| set_title_call (s : string)
| push_current_call
| add_collection_call
| scatter_call (sc : PathCollection)
| update_datalim_from_bbox_call (bbox : Bbox) (stretch_x stretch_y : bool)
| imshow_call (im : AxesImage)
| sci_call.

(** ** The controls object

    Its class lives in [controller.py]; here it is the params mapping and
    the list of registered callbacks, each with the parameter names it was
    registered for. *)
Record Controls := mk_controls {
  ctl_params : Params;
  ctl_registry : list (Callback * list string) }.

(** ** The world *)

Record World := mk_world {
  w_ax : Axes;
  w_line : Line2D;
  w_pc : list Rectangle;
  w_scats : list PathCollection;
  w_cache : gmap nat Data;
  w_im : AxesImage;
  w_controls : Controls;
  w_log : list Call }.

Definition with_ax (f : Axes -> Axes) (w : World) : World :=
  mk_world (f (w_ax w)) (w_line w) (w_pc w) (w_scats w) (w_cache w)
           (w_im w) (w_controls w) (w_log w).
Definition with_line (f : Line2D -> Line2D) (w : World) : World :=
  mk_world (w_ax w) (f (w_line w)) (w_pc w) (w_scats w) (w_cache w)
           (w_im w) (w_controls w) (w_log w).
Definition with_pc (f : list Rectangle -> list Rectangle) (w : World) : World :=
  mk_world (w_ax w) (w_line w) (f (w_pc w)) (w_scats w) (w_cache w)
           (w_im w) (w_controls w) (w_log w).
Definition with_scats (f : list PathCollection -> list PathCollection)
    (w : World) : World :=
  mk_world (w_ax w) (w_line w) (w_pc w) (f (w_scats w)) (w_cache w)
           (w_im w) (w_controls w) (w_log w).
Definition with_cache (f : gmap nat Data -> gmap nat Data) (w : World) : World :=
  mk_world (w_ax w) (w_line w) (w_pc w) (w_scats w) (f (w_cache w))
           (w_im w) (w_controls w) (w_log w).
Definition with_im (f : AxesImage -> AxesImage) (w : World) : World :=
  mk_world (w_ax w) (w_line w) (w_pc w) (w_scats w) (w_cache w)
           (f (w_im w)) (w_controls w) (w_log w).
Definition with_controls (f : Controls -> Controls) (w : World) : World :=
  mk_world (w_ax w) (w_line w) (w_pc w) (w_scats w) (w_cache w)
           (w_im w) (f (w_controls w)) (w_log w).
Definition with_log (f : list Call -> list Call) (w : World) : World :=
  mk_world (w_ax w) (w_line w) (w_pc w) (w_scats w) (w_cache w)
           (w_im w) (w_controls w) (f (w_log w)).

(** ** The monad: state with exceptions; the state reached when an
    exception is raised is kept. *)

Definition M (A : Type) : Type := World -> Res A * World.

#[global] Instance M_ret : MRet M := fun _ a w => (Ok a, w).
#[global] Instance M_bind : MBind M := fun _ _ k m w =>
  match m w with
  | (Ok a, w') => k a w'
  | (Raise e, w') => (Raise e, w')
  end.

Definition get_world : M World := fun w => (Ok w, w).
Definition modify (f : World -> World) : M unit := fun w => (Ok tt, f w).
Definition raise {A} (e : Exn) : M A := fun w => (Raise e, w).
Definition lift_res {A} (r : Res A) : M A := fun w => (r, w).
Definition emit (c : Call) : M unit := modify (with_log (fun l => l ++ [c])).

(** [if b: body] *)
Definition when (b : bool) (body : M unit) : M unit :=
  if b then body else mret tt.

(** [for a in l: body(a)] *)
Fixpoint for_each {A} (l : list A) (body : A -> M unit) : M unit :=
  match l with
  | [] => mret tt
  | a :: l' => body a;; for_each l' body
  end.

(** What a run leaves behind. *)
Definition result {A} (m : M A) (w : World) : Res A := fst (m w).
Definition after {A} (m : M A) (w : World) : World := snd (m w).

(** What [helpers.broadcast_many] hands back for the seven scatter
    arguments. *)
Record Broadcast := mk_broadcast {
  b_X : list Arg;
  b_Y : list Arg;
  b_cols : list Arg;
  b_sizes : list Arg;
  b_edgecolors : list Arg;
  b_alphas : list Arg;
  b_labels : list Arg }.

(** ** Sample collaborators and inputs

    One concrete choice for what the collaborators compute, and a few
    concrete inputs, on which the properties below are instantiated. *)
Module Sample.

(** The data spans x from -1 to 3 and y from -2 to 4. *)
Definition relim_bbox
    (_ : Line2D * list Rectangle * list PathCollection * AxesImage) : Bbox :=
  mk_bbox (-1) (-2) 4 6.
Definition autoscale_xlim (d : Bbox) (_ : Q * Q) : Q * Q :=
  (x0 d, x0 d + width d).
Definition autoscale_ylim (d : Bbox) (_ : Q * Q) : Q * Q :=
  (y0 d, y0 d + height d).
Definition plot_effect (_ : Line2D) (a : Axes) : Axes := a.
Definition add_collection_effect (a : Axes) : Axes := a.
Definition scatter_effect (_ : PathCollection) (a : Axes) : Axes := a.
Definition imshow_effect (_ : AxesImage) (a : Axes) : Axes := a.
Definition get_datalim (_ : PathCollection) : Bbox := mk_bbox 0 0 1 1.
Definition to_rgba_array (d : Data) : option Data := Some d.
Definition scat_cmap (d : Data) : option Data := Some d.
Definition norm_autoscale (_ : Data) : Data * Data := (DNum 0, DNum 1).
Definition update_datalim (_ : Bbox) (_ _ : bool) (a : Axes) : Axes := a.
Definition str_format (s : string) (_ : Params) : string := s.
Definition slider_format_dict (d : Data) (_ : bool) : Data := d.
Definition broadcast_many (_ : list (Arg * string)) : Broadcast :=
  mk_broadcast [] [] [] [] [] [] [].

(** A slider given as a tuple starts at the first value of the tuple. *)
Definition control_value (d : Data) : Data :=
  match d with
  | DTuple (v :: _) => v
  | _ => d
  end.

(** Two bins of unequal width: edges 0, 1, 3 and heights 1, 3. *)
Definition np_histogram (_ _ _ _ : Data) : list Q * list Q :=
  ([1; 3], [0; 1; 3]).

Definition axes : Axes := mk_axes (0, 1) (0, 1) (mk_bbox 0 0 1 1) true true "".

Definition world : World :=
  mk_world axes (mk_line None DNone) [] [] ∅ (mk_image DNone DNone DNone)
           (mk_controls ∅ []) [].

(** [f(tau)]: three samples that depend on [tau]. *)
Definition f : Callable :=
  mk_callable 0 (fun _ params =>
    match params !! "tau"%string with
    | Some (DNum tau) => DArr (mk_ndarray [3%nat] [tau; tau + 1; tau + 2])
    | _ => DNone
    end).

(** [tau=(0, 1)] *)
Definition kwargs : Params := {[ "tau"%string := DTuple [DNum 0; DNum 1] ]}.

End Sample.

Section pyplot.

(** ** What the collaborators compute

    matplotlib: the data limits [ax.relim()] recomputes from the artists,
    the limits autoscaling picks for an axis from the data limits and the
    current limits, and what adding an artist does to the axes. *)
Variable relim_bbox :
  Line2D * list Rectangle * list PathCollection * AxesImage -> Bbox.
Variable autoscale_xlim : Bbox -> Q * Q -> Q * Q.
Variable autoscale_ylim : Bbox -> Q * Q -> Q * Q.
Variable plot_effect : Line2D -> Axes -> Axes.
Variable add_collection_effect : Axes -> Axes.
Variable scatter_effect : PathCollection -> Axes -> Axes.
Variable imshow_effect : AxesImage -> Axes -> Axes.
Variable get_datalim : PathCollection -> Bbox.
Variable to_rgba_array : Data -> option Data.
Variable scat_cmap : Data -> option Data.
Variable norm_autoscale : Data -> Data * Data.
Variable fig_has_toolbar : bool.

(** numpy: [np.histogram(arr, bins=, density=, weights=)] yields the
    heights and the bin edges. *)
Variable np_histogram : Data -> Data -> Data -> Data -> list Q * list Q.

(** Python: [title.format] applied to the params as keyword arguments. *)
Variable str_format : string -> Params -> string.

(** helpers.py and controller.py: the backend test, the slider format
    table, the value a new control starts with, the broadcast of the
    scatter arguments, and the data-limit update of the scatter plot. *)
Variable ipympl_backend : bool.
Variable slider_format_dict : Data -> bool -> Data.
Variable control_value : Data -> Data.
Variable broadcast_many : list (Arg * string) -> Broadcast.
Variable update_datalim : Bbox -> bool -> bool -> Axes -> Axes.

(** ** Methods of the axes *)

Definition get_xlim : M (Q * Q) :=
  w ← get_world; mret (ax_xlim (w_ax w)).
Definition get_ylim : M (Q * Q) :=
  w ← get_world; mret (ax_ylim (w_ax w)).
Definition get_dataLim : M Bbox :=
  w ← get_world; mret (ax_dataLim (w_ax w)).

(** [ax.set_xlim(lims)]: [auto=False] by default, which turns
    autoscaling of that axis off. *)
Definition set_xlim (lims : Q * Q) : M unit :=
  emit (set_xlim_call lims);;
  modify (with_ax (fun a =>
    mk_axes lims (ax_ylim a) (ax_dataLim a) false (ax_autoscaley_on a)
            (ax_title a))).

Definition set_ylim (lims : Q * Q) : M unit :=
  emit (set_ylim_call lims);;
  modify (with_ax (fun a =>
    mk_axes (ax_xlim a) lims (ax_dataLim a) (ax_autoscalex_on a) false
            (ax_title a))).

Definition relim : M unit :=
  emit relim_call;;
  modify (fun w => with_ax (fun a =>
    mk_axes (ax_xlim a) (ax_ylim a)
            (relim_bbox (w_line w, w_pc w, w_scats w, w_im w))
            (ax_autoscalex_on a) (ax_autoscaley_on a) (ax_title a)) w).

(** [ax.autoscale_view(scalex=, scaley=)]: an axis is rescaled when its
    flag is passed as True and autoscaling is on for it. *)
Definition autoscale_view (scalex scaley : bool) : M unit :=
  emit (autoscale_view_call scalex scaley);;
  modify (with_ax (fun a =>
    mk_axes
      (if (scalex && ax_autoscalex_on a)%bool
       then autoscale_xlim (ax_dataLim a) (ax_xlim a) else ax_xlim a)
      (if (scaley && ax_autoscaley_on a)%bool
       then autoscale_ylim (ax_dataLim a) (ax_ylim a) else ax_ylim a)
      (ax_dataLim a) (ax_autoscalex_on a) (ax_autoscaley_on a) (ax_title a))).

Definition set_title (s : string) : M unit :=
  emit (set_title_call s);;
  modify (with_ax (fun a =>
    mk_axes (ax_xlim a) (ax_ylim a) (ax_dataLim a) (ax_autoscalex_on a)
            (ax_autoscaley_on a) s)).

(** ** [simple_hist] *)

(** The loop [for i in range(len(heights)): new_patches.append(...)]. *)
Fixpoint simple_hist_loop (heights bins : list Q) (width : Q)
    (range : list nat) (new_patches : list Rectangle) : Res (list Rectangle) :=
  match range with
  | [] => Ok new_patches
  | i :: range' =>
      b ← index bins i;
      h ← index heights i;
      simple_hist_loop heights bins width range'
        (new_patches ++ [mk_rectangle (b, 0) width h])
  end.

Definition simple_hist (arr bins density weights : Data)
    : Res ((Q * Q) * (Q * Q) * list Rectangle) :=
  let '(heights, bins) := np_histogram arr bins density weights in
  b1 ← index bins 1;
  b0 ← index bins 0;
  let width := b1 - b0 in
  new_patches ← simple_hist_loop heights bins width (seq 0 (length heights)) [];
  bmin ← array_min bins;
  bmax ← array_max bins;
  let xlims := (bmin, bmax) in
  hmax ← array_max heights;
  let ylims := (0, hmax * (105 # 100)) in
  Ok (xlims, ylims, new_patches).

(** ** [stretch] *)

(** [new if new < cur else cur] and [new if new > cur else cur] *)
Definition stretch_lo (new cur : Q) : Q := if Qltb new cur then new else cur.
Definition stretch_hi (new cur : Q) : Q := if Qgtb new cur then new else cur.

Definition stretch (xlims ylims : Q * Q) : M unit :=
  cur_xlims ← get_xlim;
  cur_ylims ← get_ylim;
  let new_lims := ylims in
  let new_lims := (stretch_lo (fst new_lims) (fst cur_ylims),
                   stretch_hi (snd new_lims) (snd cur_ylims)) in
  set_ylim new_lims;;
  let new_lims := xlims in
  let new_lims := (stretch_lo (fst new_lims) (fst cur_xlims),
                   stretch_hi (snd new_lims) (snd cur_xlims)) in
  set_xlim new_lims.

(** ** helpers.py and controller.py *)

(** The params mapping is one dict object, owned by the controls object;
    [read_params] dereferences it. *)
Definition read_params : M Params :=
  w ← get_world; mret (ctl_params (w_controls w)).

(** [params.keys()] *)
Definition keys (params : Params) : list string := (map_to_list params).*1.

(** Modelled from the spec: [helpers.callable_else_value] is not among the
    sources.  Params are "read by update callbacks": a function is called
    with the params as keyword arguments, any other value is returned as
    it is. *)
Definition callable_else_value (arg : Arg) (params : Params) : Data :=
  match arg with
  | AFun f => fn_call f [] params
  | AVal d => d
  end.

(** Modelled from the spec: [helpers.eval_xy] is not among the sources.
    The docstring of [interactive_plot] gives its contract: a function
    [x] is called with the params as keyword arguments, a function [y] is
    called with [x] and the params as keyword arguments. *)
Definition eval_xy (x_ y_ : Arg) (params : Params) : Data * Data :=
  let x := match x_ with AFun f => fn_call f [] params | AVal d => d end in
  let y := match y_ with AFun f => fn_call f [x] params | AVal d => d end in
  (x, y).

Definition notebook_backend : M bool :=
  emit notebook_backend_call;; mret ipympl_backend.

Definition gogogo_figure (ipympl ax : bool) : M unit :=
  emit (gogogo_figure_call ipympl ax).

Definition create_slider_format_dict (slider_formats : Data)
    (use_ipywidgets : bool) : M Data :=
  emit (create_slider_format_dict_call slider_formats use_ipywidgets);;
  mret (slider_format_dict slider_formats use_ipywidgets).

(** Modelled from the spec: [controller.gogogo_controls] is not among the
    sources.  It binds every named parameter of [kwargs] to a control,
    on the controls object passed in or on a new one, and yields the
    controls object and its params mapping. *)
Definition gogogo_controls (kwargs : Params) (controls display_controls : bool)
    (slider_formats play_buttons play_button_pos : Data) : M unit :=
  emit (gogogo_controls_call kwargs controls display_controls);;
  modify (with_controls (fun c =>
    if controls
    then mk_controls ((control_value <$> kwargs) ∪ ctl_params c) (ctl_registry c)
    else mk_controls (control_value <$> kwargs) [])).

(** Modelled from the spec: [Controls.register_function] is not among the
    sources.  It records the callback with the parameter names whose
    controls trigger it. *)
Definition register_function (f : Callback) (names : list string) : M unit :=
  emit (register_function_call f names);;
  modify (with_controls (fun c =>
    mk_controls (ctl_params c) (ctl_registry c ++ [(f, names)]))).

(** ** [interactive_plot] *)

Definition plot_kwargs_list : list string :=
  ["linewidth"; "linestyle"; "color"; "marker"; "markersize";
   "markeredgewidth"; "markeredgecolor"; "markerfacecolor";
   "markerfacecoloralt"; "fillstyle"; "antialiased"; "dash_capstyle";
   "solid_capstyle"; "dash_joinstyle"; "solid_joinstyle"; "pickradius";
   "drawstyle"; "markevery"; "label"]%string.

(** [for k in plot_kwargs_list: if k in kwargs: plot_kwargs[k] = kwargs.pop(k)];
    yields [(plot_kwargs, kwargs)]. *)
Definition pop_plot_kwargs (kwargs : Params) : Params * Params :=
  foldl (fun '(plot_kwargs, kwargs) k =>
           match kwargs !! k with
           | Some v => (<[k:=v]> plot_kwargs, delete k kwargs)
           | None => (plot_kwargs, kwargs)
           end)
        (∅, kwargs) plot_kwargs_list.

(** The positional arguments once dispatched on [len(args)]. *)
Record PlotArgs := mk_plot_args {
  x_and_y : bool;
  arg_x : Arg;
  arg_y : Arg;
  arg_fmt : Arg }.

(** The dispatch on [len(args)]; [Ok None] is the bare [return]. *)
Definition dispatch_args (args : list Arg) : Res (option PlotArgs) :=
  match args with
  | [] => Ok None
  | [a0] => Ok (Some (mk_plot_args false (AVal DNone) a0 (AVal DNone)))
  | [a0; a1] =>
      if is_str a1
      then Ok (Some (mk_plot_args false (AVal DNone) a0 a1))
      else Ok (Some (mk_plot_args true a0 a1 (AVal DNone)))
  | [a0; a1; a2] => Ok (Some (mk_plot_args true a0 a1 a2))
  | _ =>
      Raise (ValueError ("You passed in " +:+ pretty (length args) +:+
                         " args, but no more than 3 is supported."))
  end.

(** [if fmt:].  [fmt] is documented as a str; the other cases follow
    Python's truth values (a numeric array counts as true when it has a
    nonzero element). *)
Definition truthy (a : Arg) : bool :=
  match a with
  | AFun _ => true
  | AVal DNone => false
  | AVal (DBool b) => b
  | AVal (DNum q) => negb (Qeq_bool q 0)
  | AVal (DStr s) => negb (bool_decide (s = ""%string))
  | AVal (DArr a) => existsb (fun q => negb (Qeq_bool q 0)) (flat a)
  | AVal (DList l) | AVal (DTuple l) | AVal (DObjArr l) =>
      negb (Nat.eqb (length l) 0)
  end.

(** [ax.plot(...)[0]]: the new line replaces [line]. *)
Definition plot (x : option Data) (y : Data) (fmt : option Arg)
    (plot_kwargs : Params) : M unit :=
  emit (plot_call x y fmt plot_kwargs);;
  modify (with_line (fun _ => mk_line x y));;
  modify (with_ax (plot_effect (mk_line x y))).

(** The [update] closure of [interactive_plot].  Its second parameter
    [indices] is never used and is left out. *)
Definition interactive_plot_update (e : PlotEnv) : M unit :=
  (if p_x_and_y e then
     params ← read_params;
     let '(x_, y_) := eval_xy (p_x e) (p_y e) params in
     modify (with_line (fun _ => mk_line (Some x_) y_))
   else
     params ← read_params;
     modify (with_line (fun l =>
       mk_line (xdata l) (callable_else_value (p_y e) params))));;
  cur_xlims ← get_xlim;
  cur_ylims ← get_ylim;
  relim;;
  (if lim_eq_str (p_ylim e) "auto" then
     autoscale_view false true
   else if lim_eq_str (p_ylim e) "stretch" then
     d ← get_dataLim;
     let new_lims := (y0 d, y0 d + height d) in
     let new_lims := (stretch_lo (fst new_lims) (fst cur_ylims),
                      stretch_hi (snd new_lims) (snd cur_ylims)) in
     set_ylim new_lims
   else mret tt);;
  (if lim_eq_str (p_xlim e) "auto" then
     autoscale_view true false
   else if lim_eq_str (p_xlim e) "stretch" then
     d ← get_dataLim;
     let new_lims := (x0 d, x0 d + width d) in
     let new_lims := (stretch_lo (fst new_lims) (fst cur_xlims),
                      stretch_hi (snd new_lims) (snd cur_xlims)) in
     set_xlim new_lims
   else mret tt);;
  match p_title e with
  | Some title => params ← read_params; set_title (str_format title params)
  | None => mret tt
  end.

(** What a public function hands back. *)
Inductive Returned := ReturnNone | ReturnControls.

Definition interactive_plot (args : list Arg) (xlim ylim : Lim)
    (slider_formats : Data) (title : option string) (ax force_ipywidgets : bool)
    (play_buttons play_button_pos : Data) (controls display_controls : bool)
    (kwargs : Params) : M Returned :=
  let '(plot_kwargs, kwargs) := pop_plot_kwargs kwargs in
  parsed ← lift_res (dispatch_args args);
  match parsed with
  | None => mret ReturnNone
  | Some (mk_plot_args x_and_y x y fmt) =>
      ipympl ← notebook_backend;
      let use_ipywidgets := (ipympl || force_ipywidgets)%bool in
      gogogo_figure ipympl ax;;
      slider_formats ← create_slider_format_dict slider_formats use_ipywidgets;
      gogogo_controls kwargs controls display_controls slider_formats
                      play_buttons play_button_pos;;
      let update := plot_update (mk_plot_env x_and_y x y xlim ylim title) in
      params ← read_params;
      register_function update (keys params);;
      (if x_and_y then
         params ← read_params;
         let '(x_, y_) := eval_xy x y params in
         if truthy fmt then plot (Some x_) y_ (Some fmt) plot_kwargs
         else plot (Some x_) y_ None plot_kwargs
       else
         params ← read_params;
         let y_ := callable_else_value y params in
         if truthy fmt then plot None y_ (Some fmt) plot_kwargs
         else plot None y_ None plot_kwargs);;
      match xlim with
      | LimTuple lo hi => set_xlim (lo, hi)
      | LimStr _ => mret tt
      end;;
      match ylim with
      | LimTuple lo hi => set_ylim (lo, hi)
      | LimStr _ => mret tt
      end;;
      match title with
      | Some title => params ← read_params; set_title (str_format title params)
      | None => mret tt
      end;;
      when fig_has_toolbar (emit push_current_call);;
      mret ReturnControls
  end.

(** ** [interactive_plot_factory] *)

(** controller.py: [controls[-1].children], the subscript and the
    attribute that the factory reads off the controls object. *)
Variable last_children : Controls -> Res Data.

(** The deprecated factory calls [interactive_plot] with [f] as its one
    positional argument and everything else by keyword.  Python binds a
    keyword to the parameter of that name, and collects the others in
    the keyword dict of [interactive_plot]: a name passed twice, once
    by the call and once through the factory's own keyword dict, is a
    TypeError.  [x], [slider_format_string], [plot_kwargs] and [display]
    name no parameter of [interactive_plot]. *)
Definition interactive_plot_factory (ax : bool) (f : Arg) (x : Data)
    (xlim ylim : Lim) (slider_format_string plot_kwargs : Data)
    (title : option string) (use_ipywidgets : Data)
    (play_buttons play_button_pos : Data) (kwargs : Params) : M Data :=
  if bool_decide (is_Some (kwargs !! "display"%string) \/
                  is_Some (kwargs !! "force_ipywidgets"%string))
  then raise TypeError
  else
    let keywords : Params :=
      <["x"%string := x]>
        (<["slider_format_string"%string := slider_format_string]>
           (<["plot_kwargs"%string := plot_kwargs]>
              (<["display"%string := DBool false]> kwargs))) in
    let slider_formats := default DNone (keywords !! "slider_formats"%string) in
    let controls :=
      match keywords !! "controls"%string with
      | Some DNone | None => false
      | Some _ => true
      end in
    let display_controls :=
      match keywords !! "display_controls"%string with
      | Some d => truthy (AVal d)
      | None => true
      end in
    let kwargs :=
      delete "slider_formats"%string
        (delete "controls"%string
           (delete "display_controls"%string keywords)) in
    returned ← interactive_plot [f] xlim ylim slider_formats title ax
                 (truthy (AVal use_ipywidgets)) play_buttons play_button_pos
                 controls display_controls kwargs;
    match returned with
    | ReturnControls => w ← get_world; lift_res (last_children (w_controls w))
    | ReturnNone => raise TypeError
    end.

(** ** [interactive_hist] *)

(** The first argument: a function, or a sequence of functions. *)
Inductive FuncArg :=
| OneFunc (f : Callable)
| FuncSeq (fs : list Callable).

(** [np.atleast_1d(f)] *)
Definition atleast_1d (f : FuncArg) : list Callable :=
  match f with
  | OneFunc g => [g]
  | FuncSeq fs => fs
  end.

(** [funcs[0]] *)
Definition first_func (funcs : list Callable) : Res Callable :=
  match funcs !! 0%nat with Some f => Ok f | None => Raise IndexError end.

(** The [update] closure of [interactive_hist]. *)
Definition interactive_hist_update (e : HistEnv) : M unit :=
  params ← read_params;
  f ← lift_res (first_func (h_funcs e));
  let arr := fn_call f [] params in
  '(new_x, new_y, new_patches) ←
    lift_res (simple_hist arr (h_bins e) (h_density e) (h_weights e));
  stretch new_x new_y;;
  modify (with_pc (fun _ => new_patches));;
  autoscale_view true true.

Definition interactive_hist (f : FuncArg) (density bins weights : Data)
    (ax : bool) (slider_formats : Data) (display force_ipywidgets : bool)
    (play_buttons play_button_pos : Data) (controls display_controls : bool)
    (kwargs : Params) : M Returned :=
  let funcs := atleast_1d f in
  if negb (Nat.eqb (length funcs) 1) then
    raise (ValueError
      ("Currently only a single function is supported. You passed in " +:+
       pretty (length funcs) +:+ " functions"))
  else
    ipympl ← notebook_backend;
    gogogo_figure ipympl ax;;
    let use_ipywidgets := (ipympl || force_ipywidgets)%bool in
    slider_formats ← create_slider_format_dict slider_formats use_ipywidgets;
    gogogo_controls kwargs controls display_controls slider_formats
                    play_buttons play_button_pos;;
    modify (with_pc (fun _ => []));;
    emit add_collection_call;;
    modify (with_ax add_collection_effect);;
    let update := hist_update (mk_hist_env funcs density bins weights) in
    params ← read_params;
    register_function update (keys params);;
    params ← read_params;
    f0 ← lift_res (first_func funcs);
    '(new_x, new_y, new_patches) ←
      lift_res (simple_hist (fn_call f0 [] params) bins density weights);
    modify (with_pc (fun _ => new_patches));;
    set_xlim new_x;;
    set_ylim new_y;;
    mret ReturnControls.

(** ** [interactive_scatter] *)

Definition _prep_color (col : Arg) : Arg :=
  match col with
  | AVal (DArr a) =>
      if (Nat.eqb (ndim a) 2 &&
          match shape a !! 1%nat with
          | Some n => Nat.eqb n 3 || Nat.eqb n 4
          | None => false
          end)%bool
      then AVal (DArr (mk_ndarray (1%nat :: shape a) (flat a)))
      else col
  | _ => col
  end.

(** [isinstance(es, Number)] *)
Definition is_number (d : Data) : bool :=
  match d with DNum _ | DBool _ => true | _ => false end.

Definition _prep_size (s : Arg) : Arg :=
  match s with
  | AVal (DTuple l) | AVal (DList l) =>
      if forallb is_number l then AVal (DObjArr l) else s
  | _ => s
  end.

(** The two flags computed from [xlim] and [ylim]. *)
Definition scatter_stretch_x (xlim : Lim) : bool :=
  if lim_is_str xlim then lim_eq_str xlim "stretch" else false.

Definition scatter_stretch_y (ylim : Lim) : bool :=
  match ylim with
  | LimStr s => if bool_decide (lower s = "stretch"%string) then true else false
  | LimTuple _ _ => false
  end.

(** [check_callable_xy] and [check_callable_alpha], with the shared
    [cache] dict keyed by the function object. *)
Definition check_callable_xy (arg : Arg) (x y : Data) (params : Params)
    : M Data :=
  match arg with
  | AFun f =>
      w ← get_world;
      match w_cache w !! fn_id f with
      | Some v => mret v
      | None =>
          let v := fn_call f [x; y] params in
          modify (with_cache (fun c => <[fn_id f := v]> c));;
          mret v
      end
  | AVal d => mret d
  end.

Definition check_callable_alpha (alpha_ : Arg) (params : Params) : M Data :=
  match alpha_ with
  | AFun f =>
      w ← get_world;
      match w_cache w !! fn_id f with
      | Some v => mret v
      | None =>
          let v := fn_call f [] params in
          modify (with_cache (fun c => <[fn_id f := v]> c));;
          mret v
      end
  | AVal d => mret d
  end.

(** Modelled from the spec: [helpers.eval_xy] with the [cache] argument;
    a function found in the cache is not called again. *)
Definition eval_xy_cache (x_ y_ : Arg) (params : Params) : M (Data * Data) :=
  w ← get_world;
  let x := match x_ with
           | AFun f => match w_cache w !! fn_id f with
                       | Some v => v
                       | None => fn_call f [] params
                       end
           | AVal d => d
           end in
  let y := match y_ with
           | AFun f => match w_cache w !! fn_id f with
                       | Some v => v
                       | None => fn_call f [x] params
                       end
           | AVal d => d
           end in
  mret (x, y).

Definition is_none (d : Data) : bool :=
  match d with DNone => true | _ => false end.

(** [scat.set_...] on the [i]-th collection of [scats]. *)
Definition modify_scat (i : nat) (f : PathCollection -> PathCollection)
    : M unit :=
  modify (with_scats (fun scats =>
    match scats !! i with
    | Some sc => <[i := f sc]> scats
    | None => scats
    end)).

(** [zip(X, Y, cols, sizes, edgecolors, alphas)] *)
Definition zip6 (X Y cols sizes edgecolors alphas : list Arg)
    : list (Arg * (Arg * (Arg * (Arg * (Arg * Arg))))) :=
  zip X (zip Y (zip cols (zip sizes (zip edgecolors alphas)))).

(** The [update] closure of [interactive_scatter]. *)
Definition interactive_scatter_update (e : ScatterEnv) : M unit :=
  match s_title e with
  | Some title => params ← read_params; set_title (str_format title params)
  | None => mret tt
  end;;
  w ← get_world;
  for_each
    (zip (seq 0 (length (w_scats w)))
         (zip6 (s_X e) (s_Y e) (s_cols e) (s_sizes e) (s_edgecolors e)
               (s_alphas e)))
    (fun '(i, (x_, (y_, (c_, (s_, (ec_, alpha_)))))) =>
       params ← read_params;
       '(x, y) ← eval_xy_cache x_ y_ params;
       modify_scat i (fun sc =>
         mk_scat (x, y) (sc_facecolor sc) (sc_edgecolor sc) (sc_sizes sc)
                 (sc_alpha sc) (sc_label sc));;
       c ← check_callable_xy c_ x y params;
       s ← check_callable_xy s_ x y params;
       ec ← check_callable_xy ec_ x y params;
       a ← check_callable_alpha alpha_ params;
       (if negb (is_none c) then
          c ← match to_rgba_array c with
              | Some rgba => mret rgba
              | None =>
                  match scat_cmap c with
                  | Some mapped => mret mapped
                  | None =>
                      raise (ValueError
                        ("If c is a function it must return either an RGB(A) array" +:+
                         "or a 1D array of valid color names or values to be colormapped"))
                  end
              end;
          modify_scat i (fun sc =>
            mk_scat (sc_offsets sc) c (sc_edgecolor sc) (sc_sizes sc)
                    (sc_alpha sc) (sc_label sc))
        else mret tt);;
       when (negb (is_none ec))
         (modify_scat i (fun sc =>
            mk_scat (sc_offsets sc) (sc_facecolor sc) ec (sc_sizes sc)
                    (sc_alpha sc) (sc_label sc)));;
       when (negb (is_none s) && negb (is_number s))
         (modify_scat i (fun sc =>
            mk_scat (sc_offsets sc) (sc_facecolor sc) (sc_edgecolor sc) s
                    (sc_alpha sc) (sc_label sc)));;
       when (negb (is_none a))
         (modify_scat i (fun sc =>
            mk_scat (sc_offsets sc) (sc_facecolor sc) (sc_edgecolor sc)
                    (sc_sizes sc) a (sc_label sc)));;
       w ← get_world;
       match w_scats w !! i with
       | Some sc =>
           let bbox := get_datalim sc in
           emit (update_datalim_from_bbox_call bbox (s_stretch_x e) (s_stretch_y e));;
           modify (with_ax (update_datalim bbox (s_stretch_x e) (s_stretch_y e)))
       | None => mret tt
       end);;
  modify (with_cache (fun _ => ∅));;
  autoscale_view true true.

(** [ax.scatter(...)], appended to [scats]. *)
Definition scatter (sc : PathCollection) : M unit :=
  emit (scatter_call sc);;
  modify (with_scats (fun scats => scats ++ [sc]));;
  modify (with_ax (scatter_effect sc)).

Definition interactive_scatter (x y s c cmap vmin vmax alpha edgecolors label : Arg)
    (xlim ylim : Lim) (ax : bool) (slider_formats : Data)
    (title : option string) (display force_ipywidgets : bool)
    (play_buttons play_button_pos : Data) (controls display_controls : bool)
    (kwargs : Params) : M Returned :=
  let '(mk_broadcast X Y cols sizes edgecolors alphas labels) :=
    broadcast_many
      [(x, "x"); (y, "y"); (_prep_color c, "c"); (_prep_size s, "s");
       (_prep_color edgecolors, "edgecolors"); (alpha, "alpha");
       (label, "labels")]%string in
  let stretch_x := scatter_stretch_x xlim in
  let stretch_y := scatter_stretch_y ylim in
  ipympl ← notebook_backend;
  gogogo_figure ipympl ax;;
  let use_ipywidgets := (ipympl || force_ipywidgets)%bool in
  slider_formats ← create_slider_format_dict slider_formats use_ipywidgets;
  gogogo_controls kwargs controls display_controls slider_formats
                  play_buttons play_button_pos;;
  modify (with_scats (fun _ => []));;
  modify (with_cache (fun _ => ∅));;
  let update :=
    scatter_update (mk_scatter_env title X Y cols sizes edgecolors alphas
                                   stretch_x stretch_y) in
  params ← read_params;
  register_function update (keys params);;
  match title with
  | Some title => params ← read_params; set_title (str_format title params)
  | None => mret tt
  end;;
  for_each (zip (zip6 X Y cols sizes edgecolors alphas) labels)
    (fun '((x_, (y_, (c_, (s_, (ec_, alpha_))))), label_) =>
       params ← read_params;
       let '(x, y) := eval_xy x_ y_ params in
       c ← check_callable_xy c_ x y params;
       s ← check_callable_xy s_ x y params;
       ec ← check_callable_xy ec_ x y params;
       a ← check_callable_alpha alpha_ params;
       scatter (mk_scat (x, y) c ec s a label_);;
       match title with
       | Some title => params ← read_params; set_title (str_format title params)
       | None => mret tt
       end);;
  modify (with_cache (fun _ => ∅));;
  mret ReturnControls.

(** ** [interactive_imshow] *)

(** [new_data.ndim] of [np.asarray(...)] *)
Fixpoint data_ndim (d : Data) : nat :=
  match d with
  | DArr a => ndim a
  | DList l | DTuple l | DObjArr l =>
      S (match l with d' :: _ => data_ndim d' | [] => 0%nat end)
  | _ => 0%nat
  end.

(** [arg is None] *)
Definition arg_is_none (a : Arg) : bool :=
  match a with AVal DNone => true | _ => false end.

(** The [update] closure of [interactive_imshow]. *)
Definition interactive_imshow_update (e : ImshowEnv) : M unit :=
  match i_title e with
  | Some title => params ← read_params; set_title (str_format title params)
  | None => mret tt
  end;;
  match i_X e with
  | AFun X =>
      params ← read_params;
      let new_data := fn_call X [] params in
      modify (with_im (fun im => mk_image new_data (norm_vmin im) (norm_vmax im)));;
      when (i_autoscale_cmap e && negb (Nat.eqb (data_ndim new_data) 3) &&
            arg_is_none (i_vmin e) && arg_is_none (i_vmax e))
        (modify (with_im (fun im =>
           mk_image (im_data im) (fst (norm_autoscale new_data))
                    (snd (norm_autoscale new_data)))))
  | AVal _ => mret tt
  end;;
  match i_vmin e with
  | AFun vmin =>
      params ← read_params;
      modify (with_im (fun im =>
        mk_image (im_data im) (fn_call vmin [] params) (norm_vmax im)))
  | AVal _ => mret tt
  end;;
  match i_vmax e with
  | AFun vmax =>
      params ← read_params;
      modify (with_im (fun im =>
        mk_image (im_data im) (norm_vmin im) (fn_call vmax [] params)))
  | AVal _ => mret tt
  end.

(** [{k: controls.params[k] for k in kwargs}], over the keys [ks] of
    [kwargs]: KeyError on a name that has no control. *)
Fixpoint select_params (ks : list string) (params : Params) : Res Params :=
  match ks with
  | [] => Ok ∅
  | k :: ks' =>
      match params !! k with
      | Some v => rest ← select_params ks' params; Ok (<[k:=v]> rest)
      | None => Raise KeyError
      end
  end.

(** [ax.imshow(...)]: the new image replaces [im]. *)
Definition imshow (new_data vmin vmax : Data) : M unit :=
  emit (imshow_call (mk_image new_data vmin vmax));;
  modify (with_im (fun _ => mk_image new_data vmin vmax));;
  modify (with_ax (imshow_effect (mk_image new_data vmin vmax))).

(** The function ends with [return controls]. *)
Definition interactive_imshow (X : Arg)
    (cmap norm aspect interpolation alpha : Data) (vmin vmax : Arg)
    (origin extent : Data) (autoscale_cmap : bool)
    (filternorm filterrad resample url : Data) (ax : bool)
    (slider_formats : Data) (title : option string)
    (display force_ipywidgets : bool) (play_buttons play_button_pos : Data)
    (controls display_controls : bool) (kwargs : Params) : M Returned :=
  ipympl ← notebook_backend;
  gogogo_figure ipympl ax;;
  let use_ipywidgets := (ipympl || force_ipywidgets)%bool in
  slider_formats ← create_slider_format_dict slider_formats use_ipywidgets;
  gogogo_controls kwargs controls display_controls slider_formats
                  play_buttons play_button_pos;;
  let update :=
    imshow_update (mk_imshow_env title X autoscale_cmap vmin vmax) in
  params ← read_params;
  register_function update (keys params);;
  controls_params ← read_params;
  selected ← lift_res (select_params (keys kwargs) controls_params);
  let new_data := callable_else_value X selected in
  params ← read_params;
  imshow new_data (callable_else_value vmin params)
         (callable_else_value vmax params);;
  emit sci_call;;
  match title with
  | Some title => params ← read_params; set_title (str_format title params)
  | None => mret tt
  end;;
  mret ReturnControls.

(** ** A control changes *)

(** [params[name] = value] *)
Definition set_param (name : string) (value : Data) : M unit :=
  modify (with_controls (fun c =>
    mk_controls (<[name := value]> (ctl_params c)) (ctl_registry c))).

Definition run_callback (f : Callback) : M unit :=
  match f with
  | plot_update e => interactive_plot_update e
  | hist_update e => interactive_hist_update e
  | scatter_update e => interactive_scatter_update e
  | imshow_update e => interactive_imshow_update e
  end.


(** A run of update cycles of one callback: before each cycle one
    parameter takes a new value. *)
Definition update_cycles (f : Callback) (changes : list (string * Data))
    : M unit :=
  for_each changes (fun '(name, value) => set_param name value;; run_callback f).

(** * The vocabulary of the properties *)

(** The interval the stretch policy asks for, and interval inclusion. *)
Definition stretched (cur new : Q * Q) : Q * Q :=
  (Qmin (fst cur) (fst new), Qmax (snd cur) (snd new)).

Definition contains (outer inner : Q * Q) : Prop :=
  fst outer <= fst inner /\ snd inner <= snd outer.

(** [m] is the least, or the greatest, element of [l]. *)
Definition is_min (m : Q) (l : list Q) : Prop :=
  m ∈ l /\ forall x, x ∈ l -> m <= x.
Definition is_max (m : Q) (l : list Q) : Prop :=
  m ∈ l /\ forall x, x ∈ l -> x <= m.


(** [keeps obs m]: no run of [m] changes what [obs] observes of the world. *)
Definition keeps {A X} (obs : World -> X) (m : M A) : Prop :=
  forall w, obs (after m w) = obs w.

(** [succeeds m]: no run of [m] raises. *)
Definition succeeds {A} (m : M A) : Prop :=
  forall w, is_ok (result m w) = true.

(** Calls of one kind, read off the log. *)
Definition logged {X} (pick : Call -> option X) (w : World) : list X :=
  omap pick (w_log w).

Definition pick_set_xlim (c : Call) : option (Q * Q) :=
  match c with set_xlim_call lims => Some lims | _ => None end.
Definition pick_set_ylim (c : Call) : option (Q * Q) :=
  match c with set_ylim_call lims => Some lims | _ => None end.
Definition pick_autoscale_view (c : Call) : option (bool * bool) :=
  match c with autoscale_view_call sx sy => Some (sx, sy) | _ => None end.
Definition pick_register (c : Call) : option (Callback * list string) :=
  match c with register_function_call f names => Some (f, names) | _ => None end.


Definition params_of (w : World) : Params := ctl_params (w_controls w).



(** The visible range of an axis has not shrunk. *)
Definition x_grows (w w' : World) : Prop :=
  contains (ax_xlim (w_ax w')) (ax_xlim (w_ax w)).
Definition y_grows (w w' : World) : Prop :=
  contains (ax_ylim (w_ax w')) (ax_ylim (w_ax w)).

(** The call that a limit given as a tuple causes at creation. *)
Definition fixed_call (mk : Q * Q -> Call) (l : Lim) : list Call :=
  match l with
  | LimTuple lo hi => [mk (lo, hi)]
  | LimStr _ => []
  end.

Definition title_calls (title : option string) (params : Params) : list Call :=
  match title with
  | Some t => [set_title_call (str_format t params)]
  | None => []
  end.

(** The controls object once [gogogo_controls] has bound [kwargs]. *)
Definition bound_controls (kwargs : Params) (controls : bool) (c : Controls)
    : Controls :=
  if controls
  then mk_controls ((control_value <$> kwargs) ∪ ctl_params c) (ctl_registry c)
  else mk_controls (control_value <$> kwargs) [].

(** The calls with which every public function starts, up to the
    registration of its update callback. *)
Definition setup_calls (ax force_ipywidgets controls display_controls : bool)
    (slider_formats : Data) (kwargs : Params) : list Call :=
  [notebook_backend_call;
   gogogo_figure_call ipympl_backend ax;
   create_slider_format_dict_call slider_formats
     (ipympl_backend || force_ipywidgets);
   gogogo_controls_call kwargs controls display_controls].

(** The line once its data has been recomputed from the params. *)
Definition updated_line (e : PlotEnv) (w : World) : Line2D :=
  let params := ctl_params (w_controls w) in
  if p_x_and_y e
  then mk_line (Some (fst (eval_xy (p_x e) (p_y e) params)))
               (snd (eval_xy (p_x e) (p_y e) params))
  else mk_line (xdata (w_line w)) (callable_else_value (p_y e) params).

(** The limits, the autoscaling flag and the calls that a policy yields
    for one axis in one update cycle. *)
Definition policy_lims (policy : Lim) (auto_on : bool)
    (autoscaled new cur : Q * Q) : Q * Q :=
  if lim_eq_str policy "auto" then (if auto_on then autoscaled else cur)
  else if lim_eq_str policy "stretch" then stretched cur new
  else cur.

Definition policy_auto_on (policy : Lim) (auto_on : bool) : bool :=
  if lim_eq_str policy "auto" then auto_on
  else if lim_eq_str policy "stretch" then false
  else auto_on.

Definition policy_calls (policy : Lim) (auto_call : Call)
    (set_call : Q * Q -> Call) (new cur : Q * Q) : list Call :=
  if lim_eq_str policy "auto" then [auto_call]
  else if lim_eq_str policy "stretch" then [set_call (stretched cur new)]
  else [].

(** The same closure with another policy for one axis. *)
Definition with_xlim_policy (xlim : Lim) (e : PlotEnv) : PlotEnv :=
  mk_plot_env (p_x_and_y e) (p_x e) (p_y e) xlim (p_ylim e) (p_title e).
Definition with_ylim_policy (ylim : Lim) (e : PlotEnv) : PlotEnv :=
  mk_plot_env (p_x_and_y e) (p_x e) (p_y e) (p_xlim e) ylim (p_title e).

(** A run registers one callback: one [register_function] call is added
    to the log, the controls object holds the callback last in its
    registry, and the names registered are the names of the params
    mapping. *)
Definition registers_once {A} (m : M A) (w : World) (f : Callback) : Prop :=
  exists names,
    logged pick_register (after m w) = logged pick_register w ++ [(f, names)] /\
    last (ctl_registry (w_controls (after m w))) = Some (f, names) /\
    forall k, k ∈ names <-> is_Some (ctl_params (w_controls (after m w)) !! k).

(** The keyword arguments that reach [ax.plot] and [gogogo_controls]. *)
Definition pick_plot_kwargs (c : Call) : option Params :=
  match c with plot_call _ _ _ plot_kwargs => Some plot_kwargs | _ => None end.
Definition pick_controls_kwargs (c : Call) : option Params :=
  match c with gogogo_controls_call kwargs _ _ => Some kwargs | _ => None end.
Definition pick_set_title (c : Call) : option string :=
  match c with set_title_call s => Some s | _ => None end.

(** The limits of both axes, and their equality as pairs of rationals. *)
Definition limits (w : World) : (Q * Q) * (Q * Q) :=
  (ax_xlim (w_ax w), ax_ylim (w_ax w)).

Definition same_interval (a b : Q * Q) : Prop :=
  fst a == fst b /\ snd a == snd b.



(** The cache of [interactive_scatter]: it has grown, and what it holds
    for an argument (an argument that is no function is its own value). *)
Definition cache_grows (w w' : World) : Prop := w_cache w ⊆ w_cache w'.

Definition cached (arg : Arg) (cache : gmap nat Data) : option Data :=
  match arg with
  | AVal d => Some d
  | AFun f => cache !! fn_id f
  end.



(** One pass of the loop of the update of [interactive_scatter], over the
    [i]-th collection and the arguments zipped with it. *)
Definition scatter_update_step (e : ScatterEnv)
    (item : nat * (Arg * (Arg * (Arg * (Arg * (Arg * Arg))))))
    : M unit :=
  let '(i, (x_, (y_, (c_, (s_, (ec_, alpha_)))))) := item in
  params ← read_params;
  '(x, y) ← eval_xy_cache x_ y_ params;
  modify_scat i (fun sc =>
    mk_scat (x, y) (sc_facecolor sc) (sc_edgecolor sc) (sc_sizes sc)
            (sc_alpha sc) (sc_label sc));;
  c ← check_callable_xy c_ x y params;
  s ← check_callable_xy s_ x y params;
  ec ← check_callable_xy ec_ x y params;
  a ← check_callable_alpha alpha_ params;
  (if negb (is_none c) then
     c ← match to_rgba_array c with
         | Some rgba => mret rgba
         | None =>
             match scat_cmap c with
             | Some mapped => mret mapped
             | None =>
                 raise (ValueError
                   ("If c is a function it must return either an RGB(A) array" +:+
                    "or a 1D array of valid color names or values to be colormapped"))
             end
         end;
     modify_scat i (fun sc =>
       mk_scat (sc_offsets sc) c (sc_edgecolor sc) (sc_sizes sc)
               (sc_alpha sc) (sc_label sc))
   else mret tt);;
  when (negb (is_none ec))
    (modify_scat i (fun sc =>
       mk_scat (sc_offsets sc) (sc_facecolor sc) ec (sc_sizes sc)
               (sc_alpha sc) (sc_label sc)));;
  when (negb (is_none s) && negb (is_number s))
    (modify_scat i (fun sc =>
       mk_scat (sc_offsets sc) (sc_facecolor sc) (sc_edgecolor sc) s
               (sc_alpha sc) (sc_label sc)));;
  when (negb (is_none a))
    (modify_scat i (fun sc =>
       mk_scat (sc_offsets sc) (sc_facecolor sc) (sc_edgecolor sc)
               (sc_sizes sc) a (sc_label sc)));;
  w ← get_world;
  match w_scats w !! i with
  | Some sc =>
      let bbox := get_datalim sc in
      emit (update_datalim_from_bbox_call bbox (s_stretch_x e) (s_stretch_y e));;
      modify (with_ax (update_datalim bbox (s_stretch_x e) (s_stretch_y e)))
  | None => mret tt
  end.




(** The title template that an update callback holds. *)
Definition callback_title (f : Callback) : option string :=
  match f with
  | plot_update e => p_title e
  | hist_update _ => None
  | scatter_update e => s_title e
  | imshow_update e => i_title e
  end.

(** The image once an update of [interactive_imshow] has run: the
    colormap limits are rescaled to the new data when [X] is a function,
    [autoscale_cmap] is set, the data is not an RGB(A) image and neither
    limit was given; a limit given as a function is set last. *)
Definition updated_image (e : ImshowEnv) (w : World) : AxesImage :=
  let params := ctl_params (w_controls w) in
  let im := w_im w in
  let new_data :=
    match i_X e with AFun X => fn_call X [] params | AVal _ => im_data im end in
  let rescaled :=
    match i_X e with
    | AFun _ =>
        (i_autoscale_cmap e && negb (Nat.eqb (data_ndim new_data) 3) &&
         arg_is_none (i_vmin e) && arg_is_none (i_vmax e))%bool
    | AVal _ => false
    end in
  mk_image new_data
    (match i_vmin e with
     | AFun vmin => fn_call vmin [] params
     | AVal _ => if rescaled then fst (norm_autoscale new_data) else norm_vmin im
     end)
    (match i_vmax e with
     | AFun vmax => fn_call vmax [] params
     | AVal _ => if rescaled then snd (norm_autoscale new_data) else norm_vmax im
     end).

(** The x data handed to [ax.plot]. *)
Definition pick_plot_x (c : Call) : option (option Data) :=
  match c with plot_call x _ _ _ => Some x | _ => None end.

(** * Properties *)

(** ** Numbers *)

Lemma stretch_lo_min (new cur : Q) : stretch_lo new cur = Qmin cur new.
Proof.
  unfold stretch_lo, Qltb, Qmin, GenericMinMax.gmin.
  rewrite <- (Qcompare_antisym new cur).
  destruct (new ?= cur); reflexivity.
Qed.

Lemma stretch_hi_max (new cur : Q) : stretch_hi new cur = Qmax cur new.
Proof.
  unfold stretch_hi, Qgtb, Qmax, GenericMinMax.gmax.
  rewrite <- (Qcompare_antisym new cur).
  destruct (new ?= cur); reflexivity.
Qed.


Lemma contains_refl (a : Q * Q) : contains a a.
Proof. split; apply Qle_refl. Qed.

Lemma contains_trans (a b c : Q * Q) :
  contains a b -> contains b c -> contains a c.
Proof.
  intros [H1 H2] [H3 H4]. split; eapply Qle_trans; eassumption.
Qed.

Lemma stretched_spec (cur new : Q * Q) :
  fst (stretched cur new) == Qmin (fst new) (fst cur) /\
  snd (stretched cur new) == Qmax (snd new) (snd cur).
Proof. split; [apply Q.min_comm | apply Q.max_comm]. Qed.

Lemma Qltb_spec (a b : Q) : if Qltb a b then a < b else b <= a.
Proof.
  unfold Qltb. destruct (a ?= b) eqn:E.
  - apply Qeq_alt in E. rewrite E. apply Qle_refl.
  - by apply Qlt_alt.
  - apply Qgt_alt in E. by apply Qlt_le_weak.
Qed.

Lemma Qgtb_spec (a b : Q) : if Qgtb a b then b < a else a <= b.
Proof.
  unfold Qgtb. destruct (a ?= b) eqn:E.
  - apply Qeq_alt in E. rewrite E. apply Qle_refl.
  - apply Qlt_alt in E. by apply Qlt_le_weak.
  - by apply Qgt_alt.
Qed.

Lemma foldl_min (l : list Q) (x : Q) :
  is_min (foldl (fun m y => if Qltb y m then y else m) x l) (x :: l).
Proof.
  revert x. induction l as [|y l IH]; intros x; cbn [foldl].
  - split; [by left |]. intros z Hz. apply list_elem_of_singleton in Hz.
    subst z. apply Qle_refl.
  - pose proof (Qltb_spec y x) as Hyx.
    destruct (IH (if Qltb y x then y else x)) as [Hin Hle].
    remember (if Qltb y x then y else x) as g eqn:Eg.
    assert (g <= x /\ g <= y /\ (g = x \/ g = y)) as (Hgx & Hgy & Hg).
    { subst g. destruct (Qltb y x).
      - repeat split; [by apply Qlt_le_weak | apply Qle_refl | by right].
      - repeat split; [apply Qle_refl | done | by left]. }
    clear Eg Hyx. split.
    + apply elem_of_cons in Hin as [Hin|Hin].
      * rewrite Hin. destruct Hg as [Hg|Hg]; rewrite Hg.
        -- by left.
        -- right. by left.
      * do 2 right. exact Hin.
    + intros z Hz.
      assert (foldl (fun m y0 => if Qltb y0 m then y0 else m) g l <= g) as Hm.
      { apply Hle. by left. }
      apply elem_of_cons in Hz as [->|Hz]; [by eapply Qle_trans |].
      apply elem_of_cons in Hz as [->|Hz]; [by eapply Qle_trans |].
      apply Hle. by right.
Qed.

Lemma foldl_max (l : list Q) (x : Q) :
  is_max (foldl (fun m y => if Qgtb y m then y else m) x l) (x :: l).
Proof.
  revert x. induction l as [|y l IH]; intros x; cbn [foldl].
  - split; [by left |]. intros z Hz. apply list_elem_of_singleton in Hz.
    subst z. apply Qle_refl.
  - pose proof (Qgtb_spec y x) as Hyx.
    destruct (IH (if Qgtb y x then y else x)) as [Hin Hle].
    remember (if Qgtb y x then y else x) as g eqn:Eg.
    assert (x <= g /\ y <= g /\ (g = x \/ g = y)) as (Hgx & Hgy & Hg).
    { subst g. destruct (Qgtb y x).
      - repeat split; [by apply Qlt_le_weak | apply Qle_refl | by right].
      - repeat split; [apply Qle_refl | done | by left]. }
    clear Eg Hyx. split.
    + apply elem_of_cons in Hin as [Hin|Hin].
      * rewrite Hin. destruct Hg as [Hg|Hg]; rewrite Hg.
        -- by left.
        -- right. by left.
      * do 2 right. exact Hin.
    + intros z Hz.
      assert (g <= foldl (fun m y0 => if Qgtb y0 m then y0 else m) g l) as Hm.
      { apply Hle. by left. }
      apply elem_of_cons in Hz as [->|Hz]; [by eapply Qle_trans |].
      apply elem_of_cons in Hz as [->|Hz]; [by eapply Qle_trans |].
      apply Hle. by right.
Qed.

Lemma array_min_spec (l : list Q) :
  l <> [] -> exists m, array_min l = Ok m /\ is_min m l.
Proof.
  destruct l as [|x l]; [done |]. intros _. eexists. split; [reflexivity |].
  apply foldl_min.
Qed.

Lemma array_max_spec (l : list Q) :
  l <> [] -> exists m, array_max l = Ok m /\ is_max m l.
Proof.
  destruct l as [|x l]; [done |]. intros _. eexists. split; [reflexivity |].
  apply foldl_max.
Qed.

(** ** Reading a field of an updated world *)

Lemma w_ax_with_ax f w : w_ax (with_ax f w) = f (w_ax w).
Proof. reflexivity. Qed.

Lemma w_ax_with_line f w : w_ax (with_line f w) = w_ax w.
Proof. reflexivity. Qed.

Lemma w_ax_with_pc f w : w_ax (with_pc f w) = w_ax w.
Proof. reflexivity. Qed.

Lemma w_ax_with_scats f w : w_ax (with_scats f w) = w_ax w.
Proof. reflexivity. Qed.

Lemma w_ax_with_cache f w : w_ax (with_cache f w) = w_ax w.
Proof. reflexivity. Qed.

Lemma w_ax_with_im f w : w_ax (with_im f w) = w_ax w.
Proof. reflexivity. Qed.

Lemma w_ax_with_controls f w : w_ax (with_controls f w) = w_ax w.
Proof. reflexivity. Qed.

Lemma w_ax_with_log f w : w_ax (with_log f w) = w_ax w.
Proof. reflexivity. Qed.

Lemma w_controls_with_ax f w : w_controls (with_ax f w) = w_controls w.
Proof. reflexivity. Qed.

Lemma w_controls_with_line f w : w_controls (with_line f w) = w_controls w.
Proof. reflexivity. Qed.

Lemma w_controls_with_pc f w : w_controls (with_pc f w) = w_controls w.
Proof. reflexivity. Qed.

Lemma w_controls_with_scats f w : w_controls (with_scats f w) = w_controls w.
Proof. reflexivity. Qed.

Lemma w_controls_with_cache f w : w_controls (with_cache f w) = w_controls w.
Proof. reflexivity. Qed.

Lemma w_controls_with_im f w : w_controls (with_im f w) = w_controls w.
Proof. reflexivity. Qed.

Lemma w_controls_with_controls f w : w_controls (with_controls f w) = f (w_controls w).
Proof. reflexivity. Qed.

Lemma w_controls_with_log f w : w_controls (with_log f w) = w_controls w.
Proof. reflexivity. Qed.

Lemma w_log_with_ax f w : w_log (with_ax f w) = w_log w.
Proof. reflexivity. Qed.

Lemma w_log_with_line f w : w_log (with_line f w) = w_log w.
Proof. reflexivity. Qed.

Lemma w_log_with_pc f w : w_log (with_pc f w) = w_log w.
Proof. reflexivity. Qed.

Lemma w_log_with_scats f w : w_log (with_scats f w) = w_log w.
Proof. reflexivity. Qed.

Lemma w_log_with_cache f w : w_log (with_cache f w) = w_log w.
Proof. reflexivity. Qed.

Lemma w_log_with_im f w : w_log (with_im f w) = w_log w.
Proof. reflexivity. Qed.

Lemma w_log_with_controls f w : w_log (with_controls f w) = w_log w.
Proof. reflexivity. Qed.

Lemma w_log_with_log f w : w_log (with_log f w) = f (w_log w).
Proof. reflexivity. Qed.

Create Rewrite HintDb world.
#[local] Hint Rewrite w_ax_with_ax
  w_ax_with_line
  w_ax_with_pc
  w_ax_with_scats
  w_ax_with_cache
  w_ax_with_im
  w_ax_with_controls
  w_ax_with_log
  w_controls_with_ax
  w_controls_with_line
  w_controls_with_pc
  w_controls_with_scats
  w_controls_with_cache
  w_controls_with_im
  w_controls_with_controls
  w_controls_with_log
  w_log_with_ax
  w_log_with_line
  w_log_with_pc
  w_log_with_scats
  w_log_with_cache
  w_log_with_im
  w_log_with_controls
  w_log_with_log : world.

(** ** Running the monad *)

Lemma run_bind {A B} (m : M A) (k : A -> M B) (w : World) :
  (m ≫= k) w =
    match m w with
    | (Ok a, w') => k a w'
    | (Raise e, w') => (Raise e, w')
    end.
Proof. reflexivity. Qed.

Lemma run_ret {A} (a : A) (w : World) : (mret a : M A) w = (Ok a, w).
Proof. reflexivity. Qed.

Lemma run_read_params (w : World) :
  read_params w = (Ok (ctl_params (w_controls w)), w).
Proof. reflexivity. Qed.

Lemma run_lift_res {A} (r : Res A) (w : World) : lift_res r w = (r, w).
Proof. reflexivity. Qed.

Lemma run_get_world (w : World) : get_world w = (Ok w, w).
Proof. reflexivity. Qed.

Lemma run_modify (f : World -> World) (w : World) : modify f w = (Ok tt, f w).
Proof. reflexivity. Qed.

Lemma run_emit (c : Call) (w : World) :
  emit c w = (Ok tt, with_log (fun l => l ++ [c]) w).
Proof. reflexivity. Qed.

Lemma run_notebook_backend (w : World) :
  notebook_backend w
    = (Ok ipympl_backend, with_log (fun l => l ++ [notebook_backend_call]) w).
Proof. reflexivity. Qed.

Lemma run_gogogo_figure (ipympl ax : bool) (w : World) :
  gogogo_figure ipympl ax w
    = (Ok tt, with_log (fun l => l ++ [gogogo_figure_call ipympl ax]) w).
Proof. reflexivity. Qed.

Lemma run_create_slider_format_dict (sf : Data) (use : bool) (w : World) :
  create_slider_format_dict sf use w
    = (Ok (slider_format_dict sf use),
       with_log (fun l => l ++ [create_slider_format_dict_call sf use]) w).
Proof. reflexivity. Qed.

Lemma run_gogogo_controls (kwargs : Params) (controls display_controls : bool)
    (sf pb pbp : Data) (w : World) :
  gogogo_controls kwargs controls display_controls sf pb pbp w
    = (Ok tt,
       with_controls (bound_controls kwargs controls)
         (with_log (fun l =>
            l ++ [gogogo_controls_call kwargs controls display_controls]) w)).
Proof. reflexivity. Qed.

Lemma run_register_function (f : Callback) (names : list string) (w : World) :
  register_function f names w
    = (Ok tt,
       with_controls (fun c =>
           mk_controls (ctl_params c) (ctl_registry c ++ [(f, names)]))
         (with_log (fun l => l ++ [register_function_call f names]) w)).
Proof. reflexivity. Qed.

Lemma run_set_title (t : string) (w : World) :
  set_title t w
    = (Ok tt,
       with_ax (fun a =>
           mk_axes (ax_xlim a) (ax_ylim a) (ax_dataLim a) (ax_autoscalex_on a)
                   (ax_autoscaley_on a) t)
         (with_log (fun l => l ++ [set_title_call t]) w)).
Proof. reflexivity. Qed.

Lemma run_set_xlim (lims : Q * Q) (w : World) :
  set_xlim lims w
    = (Ok tt,
       with_ax (fun a =>
           mk_axes lims (ax_ylim a) (ax_dataLim a) false (ax_autoscaley_on a)
                   (ax_title a))
         (with_log (fun l => l ++ [set_xlim_call lims]) w)).
Proof. reflexivity. Qed.

Lemma run_set_ylim (lims : Q * Q) (w : World) :
  set_ylim lims w
    = (Ok tt,
       with_ax (fun a =>
           mk_axes (ax_xlim a) lims (ax_dataLim a) (ax_autoscalex_on a) false
                   (ax_title a))
         (with_log (fun l => l ++ [set_ylim_call lims]) w)).
Proof. reflexivity. Qed.

Lemma run_imshow (new_data vmin vmax : Data) (w : World) :
  imshow new_data vmin vmax w
    = (Ok tt,
       with_ax (imshow_effect (mk_image new_data vmin vmax))
         (with_im (fun _ => mk_image new_data vmin vmax)
            (with_log (fun l =>
               l ++ [imshow_call (mk_image new_data vmin vmax)]) w))).
Proof. reflexivity. Qed.


(** One step of a run: the first action of a sequence is a primitive. *)
Ltac step :=
  rewrite run_bind;
  first [ rewrite run_ret | rewrite run_emit | rewrite run_modify
        | rewrite run_read_params | rewrite run_get_world
        | rewrite run_lift_res | rewrite run_notebook_backend
        | rewrite run_gogogo_figure | rewrite run_create_slider_format_dict
        | rewrite run_gogogo_controls | rewrite run_register_function
        | rewrite run_set_title ];
  cbv beta iota zeta.

Ltac run_fast :=
  cbv beta iota zeta delta
    [after result set_xlim set_ylim relim autoscale_view set_title
     get_xlim get_ylim get_dataLim read_params notebook_backend
     gogogo_figure create_slider_format_dict gogogo_controls
     register_function plot scatter imshow when emit modify
     get_world raise lift_res mbind M_bind mret M_ret Res_bind Res_ret
     with_ax with_log with_line with_controls with_pc with_scats
     with_cache with_im
     w_ax w_log w_line w_controls w_pc w_scats w_cache w_im
     ax_xlim ax_ylim fst snd
     eval_xy callable_else_value
     fixed_call title_calls bound_controls setup_calls].

(** ** Observations that a run keeps *)

Lemma keeps_ret {A X} (obs : World -> X) (a : A) : keeps obs (mret a).
Proof. intros w. reflexivity. Qed.

Lemma keeps_bind {A B X} (obs : World -> X) (m : M A) (k : A -> M B) :
  keeps obs m -> (forall a, keeps obs (k a)) -> keeps obs (m ≫= k).
Proof.
  intros Hm Hk w. specialize (Hm w). unfold after in *. rewrite run_bind.
  destruct (m w) as [[a|e] w']; cbn in *; [| exact Hm].
  rewrite <- Hm. apply Hk.
Qed.

Lemma keeps_when {X} (obs : World -> X) (b : bool) (m : M unit) :
  keeps obs m -> keeps obs (when b m).
Proof. destruct b; [trivial | intros _; apply keeps_ret]. Qed.

Lemma keeps_for_each {A X} (obs : World -> X) (l : list A) (body : A -> M unit) :
  (forall a, keeps obs (body a)) -> keeps obs (for_each l body).
Proof.
  intros Hb. induction l as [|a l IH]; cbn [for_each].
  - apply keeps_ret.
  - apply keeps_bind; [apply Hb | intros _; exact IH].
Qed.

Lemma keeps_modify {X} (obs : World -> X) (f : World -> World) :
  (forall w, obs (f w) = obs w) -> keeps obs (modify f).
Proof. intros H w. apply H. Qed.

Lemma keeps_pair {A X Y} (f : World -> X) (g : World -> Y) (m : M A) :
  keeps f m -> keeps g m -> keeps (fun w => (f w, g w)) m.
Proof. intros Hf Hg w. by rewrite Hf, Hg. Qed.

Lemma keeps_emit {X} (pick : Call -> option X) (c : Call) :
  pick c = None -> keeps (logged pick) (emit c).
Proof.
  intros H w. unfold logged, after. rewrite run_emit. cbn [snd].
  rewrite w_log_with_log, omap_app. cbn. rewrite H. apply app_nil_r.
Qed.

Lemma keeps_logged_modify {X} (pick : Call -> option X) (f : World -> World) :
  (forall w, w_log (f w) = w_log w) -> keeps (logged pick) (modify f).
Proof. intros H w. unfold logged, after. cbn. by rewrite H. Qed.

Lemma keeps_set_param {X} (obs : World -> X) (name : string) (value : Data) :
  (forall f w, obs (with_controls f w) = obs w) ->
  keeps obs (set_param name value).
Proof. intros H. apply keeps_modify. intros w. apply H. Qed.

Lemma keeps_update_cycles {X} (obs : World -> X) (f : Callback)
    (changes : list (string * Data)) :
  (forall g w, obs (with_controls g w) = obs w) ->
  keeps obs (run_callback f) ->
  keeps obs (update_cycles f changes).
Proof.
  intros Hc Hf. apply keeps_for_each. intros [name value].
  apply keeps_bind; [by apply keeps_set_param | intros _; exact Hf].
Qed.




Lemma succeeds_ret {A} (a : A) : succeeds (mret a : M A).
Proof. intros w. reflexivity. Qed.

Lemma succeeds_bind {A B} (m : M A) (k : A -> M B) :
  succeeds m -> (forall a, succeeds (k a)) -> succeeds (m ≫= k).
Proof.
  intros Hm Hk w. specialize (Hm w). unfold result in *. rewrite run_bind.
  destruct (m w) as [[a|e] w']; cbn in *; [apply Hk | discriminate].
Qed.

Lemma succeeds_for_each {A} (l : list A) (body : A -> M unit) :
  (forall a, succeeds (body a)) -> succeeds (for_each l body).
Proof.
  intros Hb. induction l as [|a l IH]; cbn [for_each].
  - apply succeeds_ret.
  - apply succeeds_bind; [apply Hb | intros _; exact IH].
Qed.

Lemma succeeds_run {A} (m : M A) (w : World) :
  succeeds m -> exists a w', m w = (Ok a, w').
Proof.
  intros H. specialize (H w). unfold result in H.
  destruct (m w) as [[a|e] w']; [eauto | discriminate].
Qed.

(** Structural steps of a [keeps] or [succeeds] proof. *)
Ltac frame_step leaf :=
  first
    [ apply keeps_bind; [| intros ?]
    | apply succeeds_bind; [| intros ?]
    | apply keeps_for_each; intros ?
    | apply succeeds_for_each; intros ?
    | apply keeps_when
    | apply keeps_ret | apply succeeds_ret
    | match goal with
      | |- keeps _ (match ?x with _ => _ end) => destruct x
      | |- succeeds (match ?x with _ => _ end) => destruct x
      | |- keeps _ (let '(_, _) := ?x in _) => destruct x
      | |- succeeds (let '(_, _) := ?x in _) => destruct x
      end
    | leaf ].

Ltac frame leaf := repeat frame_step leaf.

(** Leaves for a [logged] observation: calls of another kind, and
    changes of the world outside the log. *)
Ltac logged_leaf :=
  first [ apply keeps_emit; reflexivity
        | apply keeps_logged_modify; intros ?; reflexivity
        | (intros ?; reflexivity) ].

Ltac unfold_ops :=
  unfold set_xlim, set_ylim, relim, autoscale_view, set_title, get_xlim,
    get_ylim, get_dataLim, read_params, scatter, imshow, plot, stretch,
    check_callable_xy, check_callable_alpha, eval_xy_cache, modify_scat,
    when.

Ltac params_leaf := intros ?; reflexivity.

(** ** [simple_hist] *)

Lemma simple_hist_loop_spec (heights bins : list Q) (width : Q) (n s : nat)
    (acc : list Rectangle) :
  (s + n <= length heights)%nat -> (s + n <= length bins)%nat ->
  exists rects,
    simple_hist_loop heights bins width (seq s n) acc = Ok (acc ++ rects) /\
    length rects = n /\
    forall j h b, heights !! (s + j)%nat = Some h -> bins !! (s + j)%nat = Some b ->
      (j < n)%nat -> rects !! j = Some (mk_rectangle (b, 0) width h).
Proof.
  revert s acc. induction n as [|n IH]; intros s acc Hh Hb; cbn [seq simple_hist_loop].
  - exists []. rewrite app_nil_r. split; [done |]. split; [done |].
    intros; lia.
  - destruct (lookup_lt_is_Some_2 bins s) as [b Hbs]; [lia |].
    destruct (lookup_lt_is_Some_2 heights s) as [h Hhs]; [lia |].
    unfold index. rewrite Hbs, Hhs. cbn.
    destruct (IH (S s) (acc ++ [mk_rectangle (b, 0) width h]))
      as (rects & Hrun & Hlen & Hrects); [lia | lia |].
    exists (mk_rectangle (b, 0) width h :: rects).
    split; [rewrite Hrun; by rewrite <- app_assoc |].
    split; [cbn; lia |].
    intros j h' b' Hh' Hb' Hj. destruct j as [|j].
    + rewrite Nat.add_0_r in Hh', Hb'. cbn. congruence.
    + cbn. apply Hrects; [| | lia].
      * by replace (S s + j)%nat with (s + S j)%nat by lia.
      * by replace (S s + j)%nat with (s + S j)%nat by lia.
Qed.

Lemma simple_hist_ok (arr bins density weights : Data) (heights edges : list Q) :
  np_histogram arr bins density weights = (heights, edges) ->
  length edges = S (length heights) ->
  heights <> [] ->
  exists b0 b1 xmin xmax hmax new_patches,
    simple_hist arr bins density weights
      = Ok ((xmin, xmax), (0, hmax * (105 # 100)), new_patches) /\
    edges !! 0%nat = Some b0 /\ edges !! 1%nat = Some b1 /\
    is_min xmin edges /\ is_max xmax edges /\ is_max hmax heights /\
    length new_patches = length heights /\
    forall i h b, heights !! i = Some h -> edges !! i = Some b ->
      new_patches !! i = Some (mk_rectangle (b, 0) (b1 - b0) h).
Proof.
  intros Hnp Hlen Hne. unfold simple_hist. rewrite Hnp.
  destruct edges as [|b0 [|b1 edges]]; cbn in Hlen;
    [lia | destruct heights; [done | cbn in Hlen; lia] |].
  set (bs := b0 :: b1 :: edges) in *.
  change (index bs 1) with (Ok (A:=Q) b1). change (index bs 0) with (Ok (A:=Q) b0).
  cbn [mbind Res_bind].
  destruct (simple_hist_loop_spec heights bs (b1 - b0) (length heights) 0 [])
    as (rects & Hrun & Hrl & Hrects); [lia | cbn; lia |].
  rewrite Hrun. cbn [app].
  destruct (array_min_spec bs) as (xmin & Hmin & Hxmin); [done |].
  destruct (array_max_spec bs) as (xmax & Hmax & Hxmax); [done |].
  destruct (array_max_spec heights) as (hmax & Hhm & Hhmax); [done |].
  rewrite Hmin, Hmax, Hhm.
  exists b0, b1, xmin, xmax, hmax, rects.
  repeat split; try done; try apply Hxmin; try apply Hxmax; try apply Hhmax.
  intros i h b Hh Hb. apply Hrects; [done | done |].
  by apply lookup_lt_Some in Hh.
Qed.

(** C8.  [simple_hist] on a histogram of [n >= 1] bins with heights
    [heights[0..n-1]] and edges [edges[0..n]]: the x limits are the least
    and the greatest edge, the y limits are 0 and 1.05 times the greatest
    height, and there are exactly [n] rectangles, the [i]-th anchored at
    [(edges[i], 0)] with height [heights[i]], all of the one width
    [edges[1] - edges[0]], whatever the spacing of the edges. *)
Theorem simple_hist_limits_and_patches (arr bins density weights : Data)
    (heights edges : list Q) :
  np_histogram arr bins density weights = (heights, edges) ->
  length edges = S (length heights) ->
  (1 <= length heights)%nat ->
  exists b0 b1 xmin xmax hmax new_patches,
    simple_hist arr bins density weights
      = Ok ((xmin, xmax), (0, hmax * (105 # 100)), new_patches) /\
    edges !! 0%nat = Some b0 /\ edges !! 1%nat = Some b1 /\
    is_min xmin edges /\ is_max xmax edges /\ is_max hmax heights /\
    length new_patches = length heights /\
    (forall i h b, heights !! i = Some h -> edges !! i = Some b ->
       new_patches !! i = Some (mk_rectangle (b, 0) (b1 - b0) h)) /\
    (forall r, r ∈ new_patches -> rect_width r = b1 - b0).
Proof.
  intros Hnp Hlen Hn.
  destruct (simple_hist_ok arr bins density weights heights edges Hnp Hlen)
    as (b0 & b1 & xmin & xmax & hmax & ps & Hrun & H0 & H1 & Hmin & Hmax
        & Hh & Hpl & Hps).
  { destruct heights; [cbn in Hn; lia | done]. }
  exists b0, b1, xmin, xmax, hmax, ps. repeat split; try done;
    try apply Hmin; try apply Hmax; try apply Hh.
  intros r Hr. apply list_elem_of_lookup in Hr as [i Hi].
  assert (i < length heights)%nat as Hlt.
  { rewrite <- Hpl. by apply lookup_lt_Some in Hi. }
  destruct (lookup_lt_is_Some_2 heights i Hlt) as [h Hhi].
  destruct (lookup_lt_is_Some_2 edges i) as [b Hbi]; [lia |].
  rewrite (Hps i h b Hhi Hbi) in Hi. by injection Hi as <-.
Qed.

(** A histogram without bins: [bins[1]] is out of range. *)
Lemma simple_hist_no_bins (arr bins density weights : Data) (edges : list Q) :
  np_histogram arr bins density weights = ([], edges) ->
  length edges = 1%nat ->
  simple_hist arr bins density weights = Raise IndexError.
Proof.
  intros Hnp Hlen. unfold simple_hist. rewrite Hnp.
  destruct edges as [|b0 [|b1 edges]]; cbn in Hlen; try lia. reflexivity.
Qed.


(** ** The update of [interactive_plot] *)

Lemma plot_update_run (e : PlotEnv) (w : World) :
  let params := ctl_params (w_controls w) in
  let a := w_ax w in
  let d := relim_bbox (updated_line e w, w_pc w, w_scats w, w_im w) in
  let new_x := (x0 d, x0 d + width d) in
  let new_y := (y0 d, y0 d + height d) in
  interactive_plot_update e w =
    (Ok tt,
     mk_world
       (mk_axes
          (policy_lims (p_xlim e) (ax_autoscalex_on a)
                       (autoscale_xlim d (ax_xlim a)) new_x (ax_xlim a))
          (policy_lims (p_ylim e) (ax_autoscaley_on a)
                       (autoscale_ylim d (ax_ylim a)) new_y (ax_ylim a))
          d
          (policy_auto_on (p_xlim e) (ax_autoscalex_on a))
          (policy_auto_on (p_ylim e) (ax_autoscaley_on a))
          (match p_title e with
           | Some t => str_format t params
           | None => ax_title a
           end))
       (updated_line e w) (w_pc w) (w_scats w) (w_cache w) (w_im w)
       (w_controls w)
       (w_log w
        ++ [relim_call]
        ++ policy_calls (p_ylim e) (autoscale_view_call false true)
                        set_ylim_call new_y (ax_ylim a)
        ++ policy_calls (p_xlim e) (autoscale_view_call true false)
                        set_xlim_call new_x (ax_xlim a)
        ++ title_calls (p_title e) params)).
Proof.
  destruct e as [xy x y xl yl t]. cbn zeta.
  unfold interactive_plot_update, policy_lims, policy_auto_on, policy_calls,
    updated_line, stretched.
  rewrite <- !stretch_lo_min, <- !stretch_hi_max.
  cbn [p_x_and_y p_x p_y p_xlim p_ylim p_title].
  destruct xy, (lim_eq_str yl "auto"), (lim_eq_str yl "stretch"),
    (lim_eq_str xl "auto"), (lim_eq_str xl "stretch"), t.
  all: run_fast; cbv beta iota delta [ax_dataLim ax_autoscalex_on
    ax_autoscaley_on ax_title andb xdata ydata x0 y0 width height].
  all: rewrite <- ?app_assoc; cbn [app].
  all: try reflexivity.
  all: destruct (ax_autoscalex_on (w_ax w)), (ax_autoscaley_on (w_ax w));
    reflexivity.
Qed.

Lemma policy_lims_tuple (lo hi : Q) (auto_on : bool) (autoscaled new cur : Q * Q) :
  policy_lims (LimTuple lo hi) auto_on autoscaled new cur = cur.
Proof. reflexivity. Qed.

Lemma policy_calls_tuple (lo hi : Q) (auto_call : Call)
    (set_call : Q * Q -> Call) (new cur : Q * Q) :
  policy_calls (LimTuple lo hi) auto_call set_call new cur = [].
Proof. reflexivity. Qed.

Lemma omap_policy_calls_none {X} (pick : Call -> option X) (policy : Lim)
    (auto_call : Call) (set_call : Q * Q -> Call) (new cur : Q * Q) :
  pick auto_call = None ->
  (lim_eq_str policy "stretch" = true ->
   pick (set_call (stretched cur new)) = None) ->
  omap pick (policy_calls policy auto_call set_call new cur) = [].
Proof.
  intros Ha Hs. unfold policy_calls.
  destruct (lim_eq_str policy "auto"); [cbn; by rewrite Ha |].
  destruct (lim_eq_str policy "stretch"); [| reflexivity].
  cbn. by rewrite Hs.
Qed.

Lemma omap_title_calls {X} (pick : Call -> option X) (title : option string)
    (params : Params) :
  (forall t, pick (set_title_call t) = None) ->
  omap pick (title_calls title params) = [].
Proof. intros H. destruct title; cbn; [by rewrite H | reflexivity]. Qed.

Lemma omap_policy_calls_autoscale (policy : Lim) (sx sy : bool)
    (set_call : Q * Q -> Call) (new cur : Q * Q) :
  (forall l, pick_autoscale_view (set_call l) = None) ->
  omap pick_autoscale_view
       (policy_calls policy (autoscale_view_call sx sy) set_call new cur)
    = if lim_eq_str policy "auto" then [(sx, sy)] else [].
Proof.
  intros H. unfold policy_calls.
  destruct (lim_eq_str policy "auto"); [reflexivity |].
  destruct (lim_eq_str policy "stretch"); [| reflexivity].
  cbn. by rewrite H.
Qed.



Lemma plot_update_fixed_x (e : PlotEnv) (lo hi : Q) :
  p_xlim e = LimTuple lo hi ->
  keeps (fun w => (ax_xlim (w_ax w), logged pick_set_xlim w))
        (interactive_plot_update e).
Proof.
  intros He w. unfold after. rewrite plot_update_run.
  cbn [snd w_ax ax_xlim]. unfold logged. cbn [w_log].
  rewrite He, policy_lims_tuple, policy_calls_tuple, !omap_app.
  rewrite omap_policy_calls_none, omap_title_calls by done.
  cbn. by rewrite !app_nil_r.
Qed.

Lemma plot_update_fixed_y (e : PlotEnv) (lo hi : Q) :
  p_ylim e = LimTuple lo hi ->
  keeps (fun w => (ax_ylim (w_ax w), logged pick_set_ylim w))
        (interactive_plot_update e).
Proof.
  intros He w. unfold after. rewrite plot_update_run.
  cbn [snd w_ax ax_ylim]. unfold logged. cbn [w_log].
  rewrite He, policy_lims_tuple, policy_calls_tuple, !omap_app.
  rewrite omap_policy_calls_none, omap_title_calls by done.
  cbn. by rewrite !app_nil_r.
Qed.

(** ** The stretch policy *)

Lemma stretch_after (xlims ylims : Q * Q) (w : World) :
  after (stretch xlims ylims) w =
    mk_world
      (mk_axes (stretched (ax_xlim (w_ax w)) xlims)
               (stretched (ax_ylim (w_ax w)) ylims)
               (ax_dataLim (w_ax w)) false false (ax_title (w_ax w)))
      (w_line w) (w_pc w) (w_scats w) (w_cache w) (w_im w) (w_controls w)
      (w_log w ++ [set_ylim_call (stretched (ax_ylim (w_ax w)) ylims);
                   set_xlim_call (stretched (ax_xlim (w_ax w)) xlims)]).
Proof.
  unfold stretched. rewrite <- !stretch_lo_min, <- !stretch_hi_max.
  unfold stretch. run_fast. by rewrite <- app_assoc.
Qed.


#[local] Instance x_grows_refl : Reflexive x_grows.
Proof. intros w. apply contains_refl. Qed.
#[local] Instance x_grows_trans : Transitive x_grows.
Proof. intros w1 w2 w3 H1 H2. eapply contains_trans; eassumption. Qed.
#[local] Instance y_grows_refl : Reflexive y_grows.
Proof. intros w. apply contains_refl. Qed.
#[local] Instance y_grows_trans : Transitive y_grows.
Proof. intros w1 w2 w3 H1 H2. eapply contains_trans; eassumption. Qed.






(** ** A call of [interactive_plot] *)

Arguments pop_plot_kwargs : simpl never.

Lemma dispatch_args_some (args : list Arg) :
  (1 <= length args <= 3)%nat ->
  exists pa, dispatch_args args = Ok (Some pa).
Proof.
  destruct args as [|a0 [|a1 [|a2 [|a3 args]]]]; cbn; intros [? ?]; try lia.
  - eexists; reflexivity.
  - destruct (is_str a1); eexists; reflexivity.
  - eexists; reflexivity.
Qed.

Lemma interactive_plot_run (args : list Arg) (xlim ylim : Lim)
    (slider_formats : Data) (title : option string) (ax force_ipywidgets : bool)
    (play_buttons play_button_pos : Data) (controls display_controls : bool)
    (kwargs : Params) (w : World) (pa : PlotArgs) :
  dispatch_args args = Ok (Some pa) ->
  let kwargs' := snd (pop_plot_kwargs kwargs) in
  let c := bound_controls kwargs' controls (w_controls w) in
  let update :=
    plot_update (mk_plot_env (x_and_y pa) (arg_x pa) (arg_y pa) xlim ylim title) in
  let x := if x_and_y pa
           then Some (fst (eval_xy (arg_x pa) (arg_y pa) (ctl_params c)))
           else None in
  let y := if x_and_y pa
           then snd (eval_xy (arg_x pa) (arg_y pa) (ctl_params c))
           else callable_else_value (arg_y pa) (ctl_params c) in
  let fmt := if truthy (arg_fmt pa) then Some (arg_fmt pa) else None in
  exists w' : World,
    interactive_plot args xlim ylim slider_formats title ax force_ipywidgets
        play_buttons play_button_pos controls display_controls kwargs w
      = (Ok ReturnControls, w') /\
    w_controls w'
      = mk_controls (ctl_params c)
                    (ctl_registry c ++ [(update, keys (ctl_params c))]) /\
    w_log w'
      = w_log w
        ++ setup_calls ax force_ipywidgets controls display_controls
                       slider_formats kwargs'
        ++ [register_function_call update (keys (ctl_params c));
            plot_call x y fmt (fst (pop_plot_kwargs kwargs))]
        ++ fixed_call set_xlim_call xlim
        ++ fixed_call set_ylim_call ylim
        ++ title_calls title (ctl_params c)
        ++ (if fig_has_toolbar then [push_current_call] else []) /\
    (forall lo hi, xlim = LimTuple lo hi -> ax_xlim (w_ax w') = (lo, hi)) /\
    (forall lo hi, ylim = LimTuple lo hi -> ax_ylim (w_ax w') = (lo, hi)).
Proof.
  intros Hd. unfold interactive_plot.
  destruct (pop_plot_kwargs kwargs) as [plot_kwargs kwargs'].
  cbn [fst snd]. rewrite run_bind, run_lift_res, Hd. clear Hd args.
  destruct pa as [xy x y fmt]. cbn [x_and_y arg_x arg_y arg_fmt].
  destruct xy, (truthy fmt), xlim as [sx|xlo xhi], ylim as [sy|ylo yhi],
    title as [t|], fig_has_toolbar.
  all: run_fast.
  all: eexists; split; [reflexivity|].
  all: cbv beta iota.
  all: rewrite <- ?app_assoc; cbn [app].
  all: repeat split; try reflexivity; try congruence.
Qed.


Lemma interactive_plot_raises (args : list Arg) (xlim ylim : Lim)
    (slider_formats : Data) (title : option string) (ax force_ipywidgets : bool)
    (play_buttons play_button_pos : Data) (controls display_controls : bool)
    (kwargs : Params) (w : World) :
  (3 < length args)%nat ->
  interactive_plot args xlim ylim slider_formats title ax force_ipywidgets
      play_buttons play_button_pos controls display_controls kwargs w
    = (Raise (ValueError ("You passed in " +:+ pretty (length args) +:+
                          " args, but no more than 3 is supported.")), w).
Proof.
  intros Hlen. unfold interactive_plot. destruct (pop_plot_kwargs kwargs).
  rewrite run_bind, run_lift_res.
  destruct args as [|a0 [|a1 [|a2 [|a3 args]]]]; cbn in Hlen; try lia.
  reflexivity.
Qed.

(** ** The fixed policy *)

(** C3.  The fixed policy of [interactive_plot]: a limit given as a tuple
    is set exactly once while the plot is created (one [set_xlim] call,
    with the tuple, and the axis shows it afterwards), the callback that
    is registered carries the same limit, and over any run of update
    cycles of such a callback no further [set_xlim] call is made and the
    limits of that axis stay as they are.  The same holds for [ylim]. *)
Theorem fixed_limits_set_once :
  (forall (args : list Arg) (xlim ylim : Lim) (slider_formats : Data)
          (title : option string) (ax force_ipywidgets : bool)
          (play_buttons play_button_pos : Data)
          (controls display_controls : bool) (kwargs : Params) (w : World),
     (1 <= length args <= 3)%nat ->
     let w' := after (interactive_plot args xlim ylim slider_formats title ax
                        force_ipywidgets play_buttons play_button_pos controls
                        display_controls kwargs) w in
     (forall lo hi, xlim = LimTuple lo hi ->
        logged pick_set_xlim w' = logged pick_set_xlim w ++ [(lo, hi)] /\
        ax_xlim (w_ax w') = (lo, hi)) /\
     (forall lo hi, ylim = LimTuple lo hi ->
        logged pick_set_ylim w' = logged pick_set_ylim w ++ [(lo, hi)] /\
        ax_ylim (w_ax w') = (lo, hi)) /\
     (exists e names,
        logged pick_register w'
          = logged pick_register w ++ [(plot_update e, names)] /\
        p_xlim e = xlim /\ p_ylim e = ylim)) /\
  (forall (e : PlotEnv) (changes : list (string * Data)) (w : World),
     let w' := after (update_cycles (plot_update e) changes) w in
     (forall lo hi, p_xlim e = LimTuple lo hi ->
        logged pick_set_xlim w' = logged pick_set_xlim w /\
        ax_xlim (w_ax w') = ax_xlim (w_ax w)) /\
     (forall lo hi, p_ylim e = LimTuple lo hi ->
        logged pick_set_ylim w' = logged pick_set_ylim w /\
        ax_ylim (w_ax w') = ax_ylim (w_ax w))).
Proof.
  split.
  - intros args xlim ylim slider_formats title ax force_ipywidgets
      play_buttons play_button_pos controls display_controls kwargs w Hlen.
    cbn zeta.
    destruct (dispatch_args_some args Hlen) as [pa Hpa].
    destruct (interactive_plot_run args xlim ylim slider_formats title ax
                force_ipywidgets play_buttons play_button_pos controls
                display_controls kwargs w pa Hpa)
      as (w1 & Hrun & _ & Hlog & Hx & Hy).
    unfold after. rewrite Hrun. cbn [snd].
    unfold logged. rewrite Hlog, !omap_app.
    repeat split.
    + subst xlim. destruct ylim, title, fig_has_toolbar; cbn;
        by rewrite ?app_nil_r.
    + by apply Hx.
    + subst ylim. destruct xlim, title, fig_has_toolbar; cbn;
        by rewrite ?app_nil_r.
    + by apply Hy.
    + exists (mk_plot_env (x_and_y pa) (arg_x pa) (arg_y pa) xlim ylim title).
      eexists. split; [| split; reflexivity].
      destruct xlim, ylim, title, fig_has_toolbar; cbn;
        by rewrite ?app_nil_r.
  - intros e changes w w'. split; intros lo hi He.
    + pose proof (keeps_update_cycles
        (fun w => (ax_xlim (w_ax w), logged pick_set_xlim w))
        (plot_update e) changes (fun _ _ => eq_refl)
        (plot_update_fixed_x e lo hi He) w) as H.
      injection H as H1 H2. by split.
    + pose proof (keeps_update_cycles
        (fun w => (ax_ylim (w_ax w), logged pick_set_ylim w))
        (plot_update e) changes (fun _ _ => eq_refl)
        (plot_update_fixed_y e lo hi He) w) as H.
      injection H as H1 H2. by split.
Qed.

(** ** The auto policy *)

(** C4.  In the update of [interactive_plot] the auto policy of one axis
    never rescales the other axis: the only [autoscale_view] calls of an
    update cycle are one with [scalex=False] when [ylim == "auto"] and one
    with [scaley=False] when [xlim == "auto"], and the limits an update
    leaves on one axis do not depend on the policy of the other axis. *)
Theorem auto_policy_scales_own_axis (e : PlotEnv) (w : World) :
  let w' := after (interactive_plot_update e) w in
  logged pick_autoscale_view w'
    = logged pick_autoscale_view w
      ++ (if lim_eq_str (p_ylim e) "auto" then [(false, true)] else [])
      ++ (if lim_eq_str (p_xlim e) "auto" then [(true, false)] else []) /\
  (forall xlim,
     ax_ylim (w_ax (after (interactive_plot_update (with_xlim_policy xlim e)) w))
       = ax_ylim (w_ax w')) /\
  (forall ylim,
     ax_xlim (w_ax (after (interactive_plot_update (with_ylim_policy ylim e)) w))
       = ax_xlim (w_ax w')).
Proof.
  cbn zeta. unfold after. rewrite plot_update_run. cbn [snd].
  split; [| split].
  - unfold logged; cbn [w_log]. rewrite !omap_app.
    rewrite !omap_policy_calls_autoscale by reflexivity.
    destruct (p_title e); cbn; by rewrite ?app_nil_r.
  - intros xlim. rewrite plot_update_run. reflexivity.
  - intros ylim. rewrite plot_update_run. reflexivity.
Qed.

(** ** Calls of the other public functions *)

Lemma check_callable_xy_frame (arg : Arg) (x y : Data) (params : Params) :
  keeps (fun w => (logged pick_register w, w_controls w))
        (check_callable_xy arg x y params) /\
  succeeds (check_callable_xy arg x y params).
Proof.
  unfold check_callable_xy. split.
  - destruct arg as [d|f]; [intros w; reflexivity |].
    intros w. unfold after. rewrite run_bind, run_get_world. cbv beta iota.
    destruct (w_cache w !! fn_id f); reflexivity.
  - destruct arg as [d|f]; [intros w; reflexivity |].
    intros w. unfold result. rewrite run_bind, run_get_world. cbv beta iota.
    destruct (w_cache w !! fn_id f); reflexivity.
Qed.

Lemma check_callable_alpha_frame (alpha_ : Arg) (params : Params) :
  keeps (fun w => (logged pick_register w, w_controls w))
        (check_callable_alpha alpha_ params) /\
  succeeds (check_callable_alpha alpha_ params).
Proof.
  unfold check_callable_alpha. split.
  - destruct alpha_ as [d|f]; [intros w; reflexivity |].
    intros w. unfold after. rewrite run_bind, run_get_world. cbv beta iota.
    destruct (w_cache w !! fn_id f); reflexivity.
  - destruct alpha_ as [d|f]; [intros w; reflexivity |].
    intros w. unfold result. rewrite run_bind, run_get_world. cbv beta iota.
    destruct (w_cache w !! fn_id f); reflexivity.
Qed.

Lemma scatter_frame (sc : PathCollection) :
  keeps (fun w => (logged pick_register w, w_controls w)) (scatter sc) /\
  succeeds (scatter sc).
Proof.
  split; [| intros w; reflexivity].
  apply keeps_pair; [| intros w; reflexivity].
  unfold_ops. frame logged_leaf.
Qed.

Lemma set_title_frame (t : string) :
  keeps (fun w => (logged pick_register w, w_controls w)) (set_title t) /\
  succeeds (set_title t).
Proof.
  split; [| intros w; reflexivity].
  apply keeps_pair; [| intros w; reflexivity].
  unfold_ops. frame logged_leaf.
Qed.

Ltac creation_leaf :=
  first [ apply check_callable_xy_frame | apply check_callable_alpha_frame
        | apply scatter_frame | apply set_title_frame
        | (intros ?; reflexivity) ].

Lemma interactive_scatter_run
    (x y s c cmap vmin vmax alpha edgecolors label : Arg)
    (xlim ylim : Lim) (ax : bool) (slider_formats : Data)
    (title : option string) (display force_ipywidgets : bool)
    (play_buttons play_button_pos : Data) (controls display_controls : bool)
    (kwargs : Params) (w : World) :
  let b := broadcast_many
      [(x, "x"); (y, "y"); (_prep_color c, "c"); (_prep_size s, "s");
       (_prep_color edgecolors, "edgecolors"); (alpha, "alpha");
       (label, "labels")]%string in
  let update :=
    scatter_update
      (mk_scatter_env title (b_X b) (b_Y b) (b_cols b) (b_sizes b)
         (b_edgecolors b) (b_alphas b)
         (scatter_stretch_x xlim) (scatter_stretch_y ylim)) in
  let cs := bound_controls kwargs controls (w_controls w) in
  exists w',
    interactive_scatter x y s c cmap vmin vmax alpha edgecolors label xlim ylim
        ax slider_formats title display force_ipywidgets play_buttons
        play_button_pos controls display_controls kwargs w
      = (Ok ReturnControls, w') /\
    w_controls w'
      = mk_controls (ctl_params cs)
                    (ctl_registry cs ++ [(update, keys (ctl_params cs))]) /\
    logged pick_register w'
      = logged pick_register w ++ [(update, keys (ctl_params cs))].
Proof.
  cbn zeta. unfold interactive_scatter.
  destruct (broadcast_many _) as [X Y cols sizes ecs alphas labels].
  cbn [b_X b_Y b_cols b_sizes b_edgecolors b_alphas].
  do 8 step. autorewrite with world.
  set (upd := scatter_update _).
  set (cs := bound_controls kwargs controls (w_controls w)).
  match goal with |- context [(_ ≫= _) ?W] => remember W as w0 eqn:Ew0 end.
  assert (w_controls w0
          = mk_controls (ctl_params cs)
              (ctl_registry cs ++ [(upd, keys (ctl_params cs))])) as Hc0.
  { rewrite Ew0. autorewrite with world. reflexivity. }
  assert (logged pick_register w0
          = logged pick_register w ++ [(upd, keys (ctl_params cs))]) as Hl0.
  { rewrite Ew0. unfold logged. autorewrite with world.
    rewrite !omap_app. cbn. by rewrite !app_nil_r. }
  clear Ew0.
  match goal with
  | |- context [(for_each ?l ?body ≫= ?k)] =>
      assert (keeps (fun w => (logged pick_register w, w_controls w))
                    (for_each l body) /\ succeeds (for_each l body))
        as [Hk Hs]
  end.
  { split.
    - apply keeps_for_each.
      intros [[x_ [y_ [c_ [s_ [ec_ alpha_]]]]] label_].
      destruct title; frame creation_leaf.
    - apply succeeds_for_each.
      intros [[x_ [y_ [c_ [s_ [ec_ alpha_]]]]] label_].
      destruct title; frame creation_leaf. }
  match goal with
  | |- context [(?m ≫= ?k) w0] =>
      assert (exists w1, m w0 = (Ok tt, w1) /\
                logged pick_register w1 = logged pick_register w0 /\
                w_controls w1 = w_controls w0) as (w1 & E1 & Hl1 & Hc1)
  end.
  { destruct title as [t|].
    - step. rewrite run_set_title. eexists; split; [reflexivity |].
      unfold logged. autorewrite with world.
      rewrite !omap_app. cbn. by rewrite !app_nil_r.
    - rewrite run_ret. eexists; split; [reflexivity |]. by split. }
  rewrite run_bind, E1. cbv beta iota.
  rewrite run_bind.
  match goal with
  | |- context [for_each ?l ?body w1] =>
      destruct (succeeds_run (for_each l body) w1 Hs) as ([] & w2 & E2);
      specialize (Hk w1); unfold after in Hk; rewrite E2 in Hk;
      rewrite E2
  end.
  cbv beta iota. step. rewrite run_ret.
  cbn [snd] in Hk. injection Hk as Hl2 Hc2.
  eexists; split; [reflexivity |].
  unfold logged in *. autorewrite with world.
  rewrite Hc2, Hl2, Hc1, Hl1, Hc0, Hl0. by split.
Qed.

Lemma length_one {A} (l : list A) : length l = 1%nat -> exists a, l = [a].
Proof. destruct l as [|a [|b l]]; cbn; intros H; try lia. by exists a. Qed.

Lemma interactive_hist_run (f : FuncArg) (density bins weights : Data)
    (ax : bool) (slider_formats : Data) (display force_ipywidgets : bool)
    (play_buttons play_button_pos : Data) (controls display_controls : bool)
    (kwargs : Params) (w : World) (f0 : Callable) :
  atleast_1d f = [f0] ->
  let cs := bound_controls kwargs controls (w_controls w) in
  let update := hist_update (mk_hist_env [f0] density bins weights) in
  let r := simple_hist (fn_call f0 [] (ctl_params cs)) bins density weights in
  exists w',
    interactive_hist f density bins weights ax slider_formats display
        force_ipywidgets play_buttons play_button_pos controls
        display_controls kwargs w
      = (match r with Ok _ => Ok ReturnControls | Raise e => Raise e end, w') /\
    w_controls w'
      = mk_controls (ctl_params cs)
                    (ctl_registry cs ++ [(update, keys (ctl_params cs))]) /\
    logged pick_register w'
      = logged pick_register w ++ [(update, keys (ctl_params cs))].
Proof.
  intros Hf. cbn zeta. unfold interactive_hist. rewrite Hf.
  cbn [length Nat.eqb negb].
  do 10 step. autorewrite with world.
  rewrite run_bind, run_lift_res. cbn [first_func lookup list_lookup].
  cbv beta iota.
  rewrite run_bind, run_lift_res.
  set (upd := hist_update _).
  set (cs := bound_controls kwargs controls (w_controls w)).
  destruct (simple_hist _ _ _ _) as [[[new_x new_y] new_patches]|e];
    cbv beta iota.
  - step. rewrite run_bind, run_set_xlim. cbv beta iota.
    rewrite run_bind, run_set_ylim. cbv beta iota. rewrite run_ret.
    eexists; split; [reflexivity |].
    unfold logged. autorewrite with world.
    split; [reflexivity |].
    rewrite !omap_app. cbn. by rewrite !app_nil_r.
  - eexists; split; [reflexivity |].
    unfold logged. autorewrite with world.
    split; [reflexivity |].
    rewrite !omap_app. cbn. by rewrite !app_nil_r.
Qed.

Lemma interactive_hist_raises (f : FuncArg) (density bins weights : Data)
    (ax : bool) (slider_formats : Data) (display force_ipywidgets : bool)
    (play_buttons play_button_pos : Data) (controls display_controls : bool)
    (kwargs : Params) (w : World) :
  length (atleast_1d f) <> 1%nat ->
  interactive_hist f density bins weights ax slider_formats display
      force_ipywidgets play_buttons play_button_pos controls
      display_controls kwargs w
    = (Raise (ValueError
        ("Currently only a single function is supported. You passed in " +:+
         pretty (length (atleast_1d f)) +:+ " functions")), w).
Proof.
  intros Hlen. unfold interactive_hist.
  destruct (Nat.eqb_spec (length (atleast_1d f)) 1) as [E|E]; [done |].
  reflexivity.
Qed.

Lemma select_params_ok (ks : list string) (params : Params) :
  (forall k, k ∈ ks -> is_Some (params !! k)) ->
  exists selected, select_params ks params = Ok selected.
Proof.
  induction ks as [|k ks IH]; intros H; cbn.
  - eexists; reflexivity.
  - destruct (H k) as [v Hv]; [by left |]. rewrite Hv.
    destruct IH as [rest Hrest]; [intros k' Hk'; apply H; by right |].
    rewrite Hrest. eexists; reflexivity.
Qed.

Lemma elem_of_keys (params : Params) (k : string) :
  k ∈ keys params <-> is_Some (params !! k).
Proof.
  unfold keys. rewrite list_elem_of_fmap. split.
  - intros [[k' v] [-> H]]. apply elem_of_map_to_list in H. by exists v.
  - intros [v H]. exists (k, v). split; [done |].
    by apply elem_of_map_to_list.
Qed.

Lemma bound_controls_binds (kwargs : Params) (controls : bool) (c : Controls)
    (k : string) :
  k ∈ keys kwargs -> is_Some (ctl_params (bound_controls kwargs controls c) !! k).
Proof.
  rewrite elem_of_keys. intros [v Hv]. unfold bound_controls.
  destruct controls; cbn.
  - exists (control_value v). apply lookup_union_Some_l.
    by rewrite lookup_fmap, Hv.
  - exists (control_value v). by rewrite lookup_fmap, Hv.
Qed.

Lemma interactive_imshow_run (X : Arg)
    (cmap norm aspect interpolation alpha : Data) (vmin vmax : Arg)
    (origin extent : Data) (autoscale_cmap : bool)
    (filternorm filterrad resample url : Data) (ax : bool)
    (slider_formats : Data) (title : option string)
    (display force_ipywidgets : bool) (play_buttons play_button_pos : Data)
    (controls display_controls : bool) (kwargs : Params) (w : World) :
  let cs := bound_controls kwargs controls (w_controls w) in
  let update :=
    imshow_update (mk_imshow_env title X autoscale_cmap vmin vmax) in
  exists w' selected,
    interactive_imshow X cmap norm aspect interpolation alpha vmin vmax origin
        extent autoscale_cmap filternorm filterrad resample url ax
        slider_formats title display force_ipywidgets play_buttons
        play_button_pos controls display_controls kwargs w
      = (Ok ReturnControls, w') /\
    select_params (keys kwargs) (ctl_params cs) = Ok selected /\
    w_controls w'
      = mk_controls (ctl_params cs)
                    (ctl_registry cs ++ [(update, keys (ctl_params cs))]) /\
    logged pick_register w'
      = logged pick_register w ++ [(update, keys (ctl_params cs))] /\
    w_im w' = mk_image (callable_else_value X selected)
                       (callable_else_value vmin (ctl_params cs))
                       (callable_else_value vmax (ctl_params cs)).
Proof.
  cbn zeta. unfold interactive_imshow.
  do 7 step. autorewrite with world.
  set (upd := imshow_update _).
  set (cs := bound_controls kwargs controls (w_controls w)).
  destruct (select_params_ok (keys kwargs) (ctl_params cs)) as [selected Hsel].
  { intros k Hk. by apply bound_controls_binds. }
  rewrite run_bind, run_lift_res. cbn [ctl_params]. rewrite Hsel.
  cbv beta iota zeta.
  step. autorewrite with world. cbn [ctl_params].
  rewrite run_bind, run_imshow. cbv beta iota.
  step.
  destruct title as [t|].
  - rewrite run_bind. step. rewrite run_set_title. cbv beta iota.
    rewrite run_ret.
    do 2 eexists; split; [reflexivity |]. split; [reflexivity |].
    unfold logged. autorewrite with world.
    split; [reflexivity |]. split; [| reflexivity].
    rewrite !omap_app. cbn. by rewrite !app_nil_r.
  - step. rewrite run_ret.
    do 2 eexists; split; [reflexivity |]. split; [reflexivity |].
    unfold logged. autorewrite with world.
    split; [reflexivity |]. split; [| reflexivity].
    rewrite !omap_app. cbn. by rewrite !app_nil_r.
Qed.

(** ** Registration of the update callbacks *)

Lemma registers_once_intro {A} (m : M A) (w w' : World) (r : Res A)
    (f : Callback) (cs : Controls) :
  m w = (r, w') ->
  w_controls w'
    = mk_controls (ctl_params cs) (ctl_registry cs ++ [(f, keys (ctl_params cs))]) ->
  logged pick_register w'
    = logged pick_register w ++ [(f, keys (ctl_params cs))] ->
  registers_once m w f.
Proof.
  intros Hrun Hc Hl. exists (keys (ctl_params cs)).
  unfold after. rewrite Hrun. cbn [snd]. rewrite Hc. cbn [ctl_params ctl_registry].
  split; [exact Hl |]. split; [apply last_snoc |].
  intros k. apply elem_of_keys.
Qed.

(** C5.  Each public function that returns has registered exactly one
    update callback, its own, with the controls object, for the names of
    the params mapping; [interactive_plot] with one to three positional
    arguments, [interactive_scatter] and [interactive_imshow] always
    return, and [interactive_hist] registers its callback whenever it is
    given a single function. *)
Theorem update_registered_once :
  (forall (args : list Arg) (xlim ylim : Lim) (slider_formats : Data)
          (title : option string) (ax force_ipywidgets : bool)
          (play_buttons play_button_pos : Data)
          (controls display_controls : bool) (kwargs : Params) (w : World),
     let m := interactive_plot args xlim ylim slider_formats title ax
                force_ipywidgets play_buttons play_button_pos controls
                display_controls kwargs in
     ((1 <= length args <= 3)%nat -> result m w = Ok ReturnControls) /\
     (args <> [] -> is_ok (result m w) = true ->
      exists pa, dispatch_args args = Ok (Some pa) /\
        registers_once m w
          (plot_update (mk_plot_env (x_and_y pa) (arg_x pa) (arg_y pa)
                                    xlim ylim title)))) /\
  (forall (f : FuncArg) (density bins weights : Data) (ax : bool)
          (slider_formats : Data) (display force_ipywidgets : bool)
          (play_buttons play_button_pos : Data)
          (controls display_controls : bool) (kwargs : Params) (w : World),
     let m := interactive_hist f density bins weights ax slider_formats
                display force_ipywidgets play_buttons play_button_pos
                controls display_controls kwargs in
     (is_ok (result m w) = true -> length (atleast_1d f) = 1%nat) /\
     (length (atleast_1d f) = 1%nat ->
      registers_once m w
        (hist_update (mk_hist_env (atleast_1d f) density bins weights)))) /\
  (forall (x y s c cmap vmin vmax alpha edgecolors label : Arg)
          (xlim ylim : Lim) (ax : bool) (slider_formats : Data)
          (title : option string) (display force_ipywidgets : bool)
          (play_buttons play_button_pos : Data)
          (controls display_controls : bool) (kwargs : Params) (w : World),
     let m := interactive_scatter x y s c cmap vmin vmax alpha edgecolors
                label xlim ylim ax slider_formats title display
                force_ipywidgets play_buttons play_button_pos controls
                display_controls kwargs in
     result m w = Ok ReturnControls /\
     exists e, registers_once m w (scatter_update e)) /\
  (forall (X : Arg) (cmap norm aspect interpolation alpha : Data)
          (vmin vmax : Arg) (origin extent : Data) (autoscale_cmap : bool)
          (filternorm filterrad resample url : Data) (ax : bool)
          (slider_formats : Data) (title : option string)
          (display force_ipywidgets : bool)
          (play_buttons play_button_pos : Data)
          (controls display_controls : bool) (kwargs : Params) (w : World),
     let m := interactive_imshow X cmap norm aspect interpolation alpha vmin
                vmax origin extent autoscale_cmap filternorm filterrad
                resample url ax slider_formats title display
                force_ipywidgets play_buttons play_button_pos controls
                display_controls kwargs in
     result m w = Ok ReturnControls /\
     registers_once m w
       (imshow_update (mk_imshow_env title X autoscale_cmap vmin vmax))).
Proof.
  split; [| split; [| split]].
  - intros args xlim ylim slider_formats title ax force_ipywidgets
      play_buttons play_button_pos controls display_controls kwargs w m.
    assert (forall pa, dispatch_args args = Ok (Some pa) ->
              result m w = Ok ReturnControls /\
              registers_once m w
                (plot_update (mk_plot_env (x_and_y pa) (arg_x pa) (arg_y pa)
                                          xlim ylim title))) as Hrun.
    { intros pa Hpa.
      destruct (interactive_plot_run args xlim ylim slider_formats title ax
                  force_ipywidgets play_buttons play_button_pos controls
                  display_controls kwargs w pa Hpa)
        as (w' & Hrun & Hc & Hlog & _).
      split; [unfold result; subst m; by rewrite Hrun |].
      eapply registers_once_intro; [exact Hrun | exact Hc |].
      unfold logged. rewrite Hlog, !omap_app.
      destruct xlim, ylim, title, fig_has_toolbar; cbn;
        by rewrite ?app_nil_r. }
    split.
    + intros Hlen. destruct (dispatch_args_some args Hlen) as [pa Hpa].
      by destruct (Hrun pa Hpa).
    + intros Hne Hok.
      destruct (Nat.le_gt_cases (length args) 3) as [Hle|Hgt].
      * destruct (dispatch_args_some args) as [pa Hpa].
        { destruct args; [done | cbn in *; lia]. }
        exists pa. split; [done |]. by destruct (Hrun pa Hpa).
      * subst m. unfold result in Hok.
        rewrite interactive_plot_raises in Hok by exact Hgt. discriminate.
  - intros f density bins weights ax slider_formats display force_ipywidgets
      play_buttons play_button_pos controls display_controls kwargs w m.
    split.
    + intros Hok.
      destruct (decide (length (atleast_1d f) = 1%nat)) as [E|E]; [done |].
      subst m. unfold result in Hok.
      rewrite interactive_hist_raises in Hok by exact E. discriminate.
    + intros Hlen. destruct (length_one _ Hlen) as [f0 Hf0].
      destruct (interactive_hist_run f density bins weights ax slider_formats
                  display force_ipywidgets play_buttons play_button_pos
                  controls display_controls kwargs w f0 Hf0)
        as (w' & Hrun & Hc & Hlog).
      rewrite Hf0. eapply registers_once_intro; [exact Hrun | exact Hc | exact Hlog].
  - intros x y s c cmap vmin vmax alpha edgecolors label xlim ylim ax
      slider_formats title display force_ipywidgets play_buttons
      play_button_pos controls display_controls kwargs w m.
    destruct (interactive_scatter_run x y s c cmap vmin vmax alpha edgecolors
                label xlim ylim ax slider_formats title display
                force_ipywidgets play_buttons play_button_pos controls
                display_controls kwargs w)
      as (w' & Hrun & Hc & Hlog).
    split; [unfold result; subst m; by rewrite Hrun |].
    eexists. eapply registers_once_intro; [exact Hrun | exact Hc | exact Hlog].
  - intros X cmap norm aspect interpolation alpha vmin vmax origin extent
      autoscale_cmap filternorm filterrad resample url ax slider_formats
      title display force_ipywidgets play_buttons play_button_pos controls
      display_controls kwargs w m.
    destruct (interactive_imshow_run X cmap norm aspect interpolation alpha
                vmin vmax origin extent autoscale_cmap filternorm filterrad
                resample url ax slider_formats title display
                force_ipywidgets play_buttons play_button_pos controls
                display_controls kwargs w)
      as (w' & selected & Hrun & _ & Hc & Hlog & _).
    split; [unfold result; subst m; by rewrite Hrun |].
    eapply registers_once_intro; [exact Hrun | exact Hc | exact Hlog].
Qed.

(** ** Argument checks *)



(** ** The params mapping under the update callbacks *)

Lemma plot_update_keeps_params (e : PlotEnv) :
  keeps params_of (interactive_plot_update e).
Proof. intros w. unfold after. by rewrite plot_update_run. Qed.

Lemma hist_update_keeps_params (e : HistEnv) :
  keeps params_of (interactive_hist_update e).
Proof. unfold interactive_hist_update. frame params_leaf. Qed.

Lemma scatter_update_keeps_params (e : ScatterEnv) :
  keeps params_of (interactive_scatter_update e).
Proof.
  unfold interactive_scatter_update. unfold_ops. frame params_leaf.
Qed.

Lemma imshow_update_keeps_params (e : ImshowEnv) :
  keeps params_of (interactive_imshow_update e).
Proof. unfold interactive_imshow_update. unfold_ops. frame params_leaf. Qed.

(** C7.  No update callback mutates the params mapping: after any run
    of the update of [interactive_plot], [interactive_hist],
    [interactive_scatter] or [interactive_imshow], whether it ends
    normally or raises, the mapping holds what it held before. *)
Theorem update_never_mutates_params (w : World) :
  (forall e, params_of (after (interactive_plot_update e) w) = params_of w) /\
  (forall e, params_of (after (interactive_hist_update e) w) = params_of w) /\
  (forall e, params_of (after (interactive_scatter_update e) w) = params_of w) /\
  (forall e, params_of (after (interactive_imshow_update e) w) = params_of w).
Proof.
  repeat split; intros e.
  - apply plot_update_keeps_params.
  - apply hist_update_keeps_params.
  - apply scatter_update_keeps_params.
  - apply imshow_update_keeps_params.
Qed.

(** ** A control changes *)





(** ** The stretch flags of [interactive_scatter] *)

Lemma scatter_stretch_agree_lower (s : string) :
  lower s = s -> scatter_stretch_x (LimStr s) = scatter_stretch_y (LimStr s).
Proof.
  intros Hs. unfold scatter_stretch_x, scatter_stretch_y. cbn. rewrite Hs.
  by destruct (bool_decide (s = "stretch"%string)).
Qed.

Lemma scatter_stretch_tuple (lo hi : Q) :
  scatter_stretch_x (LimTuple lo hi) = false /\
  scatter_stretch_y (LimTuple lo hi) = false.
Proof. by split. Qed.

(** C2.  The flags that [interactive_scatter] computes for the two axes
    from one and the same string: for ["Stretch"] the x axis is not
    stretched while the y axis is, and this is what the registered
    callback carries. *)
Theorem scatter_stretch_case_mismatch
    (x y s c cmap vmin vmax alpha edgecolors label : Arg)
    (ax : bool) (slider_formats : Data)
    (title : option string) (display force_ipywidgets : bool)
    (play_buttons play_button_pos : Data) (controls display_controls : bool)
    (kwargs : Params) (w : World) :
  scatter_stretch_x (LimStr "Stretch") = false /\
  scatter_stretch_y (LimStr "Stretch") = true /\
  exists e names,
    logged pick_register
      (after (interactive_scatter x y s c cmap vmin vmax alpha edgecolors
                label (LimStr "Stretch") (LimStr "Stretch") ax slider_formats
                title display force_ipywidgets play_buttons play_button_pos
                controls display_controls kwargs) w)
      = logged pick_register w ++ [(scatter_update e, names)] /\
    s_stretch_x e = false /\ s_stretch_y e = true.
Proof.
  split; [reflexivity |]. split; [reflexivity |].
  destruct (interactive_scatter_run x y s c cmap vmin vmax alpha edgecolors
              label (LimStr "Stretch") (LimStr "Stretch") ax slider_formats
              title display force_ipywidgets play_buttons play_button_pos
              controls display_controls kwargs w)
    as (w' & Hrun & _ & Hlog).
  unfold after. rewrite Hrun. cbn [snd].
  do 2 eexists. split; [exact Hlog |]. by split.
Qed.

(** * Compositions, failures and edge cases *)

(** ** The keyword arguments of [interactive_plot] *)

Lemma decide_elem_of_cons {X} (k a : string) (l : list string) (u v : X) :
  (if decide (k ∈ a :: l) then u else v)
    = if decide (k = a) then u else if decide (k ∈ l) then u else v.
Proof.
  destruct (decide (k = a)) as [->|Hne].
  - rewrite decide_True; [done | apply elem_of_cons; by left].
  - destruct (decide (k ∈ l)) as [Hin|Hin].
    + rewrite decide_True; [done | apply elem_of_cons; by right].
    + rewrite decide_False; [done |]. by intros [?|?]%elem_of_cons.
Qed.

Lemma pop_plot_kwargs_fold (l : list string) (plot_kwargs kwargs : Params)
    (k : string) :
  let r := foldl (fun '(plot_kwargs, kwargs) k =>
                    match kwargs !! k with
                    | Some v => (<[k:=v]> plot_kwargs, delete k kwargs)
                    | None => (plot_kwargs, kwargs)
                    end)
                 (plot_kwargs, kwargs) l in
  fst r !! k = (if decide (k ∈ l)
                then match kwargs !! k with
                     | Some v => Some v
                     | None => plot_kwargs !! k
                     end
                else plot_kwargs !! k) /\
  snd r !! k = (if decide (k ∈ l) then None else kwargs !! k).
Proof.
  revert plot_kwargs kwargs. induction l as [|a l IH]; intros pk m; cbn [foldl].
  - cbn. split; reflexivity.
  - cbv zeta. rewrite !decide_elem_of_cons.
    destruct (m !! a) as [v|] eqn:Ha.
    + destruct (IH (<[a:=v]> pk) (delete a m)) as [IH1 IH2].
      cbv zeta in IH1, IH2. rewrite IH1, IH2. clear IH IH1 IH2.
      destruct (decide (k = a)) as [->|Hne].
      * rewrite lookup_delete_eq, lookup_insert_eq, Ha.
        split; by destruct (decide (a ∈ l)).
      * by rewrite lookup_delete_ne, lookup_insert_ne by done.
    + destruct (IH pk m) as [IH1 IH2].
      cbv zeta in IH1, IH2. rewrite IH1, IH2. clear IH IH1 IH2.
      destruct (decide (k = a)) as [->|Hne]; [| done].
      rewrite Ha. split; by destruct (decide (a ∈ l)).
Qed.

Lemma pop_plot_kwargs_lookup (kwargs : Params) (k : string) :
  fst (pop_plot_kwargs kwargs) !! k
    = (if decide (k ∈ plot_kwargs_list) then kwargs !! k else None) /\
  snd (pop_plot_kwargs kwargs) !! k
    = (if decide (k ∈ plot_kwargs_list) then None else kwargs !! k).
Proof.
  destruct (pop_plot_kwargs_fold plot_kwargs_list ∅ kwargs k) as [H1 H2].
  unfold pop_plot_kwargs. cbv zeta in H1, H2. rewrite H1, H2.
  split; [| done]. destruct (decide (k ∈ plot_kwargs_list)); [| done].
  rewrite lookup_empty. by destruct (kwargs !! k).
Qed.

(** X1.  The loop over [plot_kwargs_list] splits the keyword arguments in two:
    an option of the line goes to [plot_kwargs] with its value and leaves
    [kwargs]; every other name stays in [kwargs] and is not in
    [plot_kwargs]. *)
Theorem pop_plot_kwargs_partition (kwargs : Params) (k : string) :
  fst (pop_plot_kwargs kwargs) !! k
    = (if decide (k ∈ plot_kwargs_list) then kwargs !! k else None) /\
  snd (pop_plot_kwargs kwargs) !! k
    = (if decide (k ∈ plot_kwargs_list) then None else kwargs !! k).
Proof. apply pop_plot_kwargs_lookup. Qed.


(** ** [stretch], composed *)

Lemma Qcompare_same (a : Q) : (a ?= a) = Eq.
Proof. apply Qeq_alt. reflexivity. Qed.

Lemma stretched_idem (cur new : Q * Q) :
  stretched (stretched cur new) new = stretched cur new.
Proof.
  unfold stretched. cbn [fst snd]. f_equal.
  - unfold Qmin, GenericMinMax.gmin.
    destruct (fst cur ?= fst new) eqn:E; rewrite ?E, ?Qcompare_same; done.
  - unfold Qmax, GenericMinMax.gmax.
    destruct (snd cur ?= snd new) eqn:E; rewrite ?E, ?Qcompare_same; done.
Qed.

Lemma stretched_within (cur new : Q * Q) :
  contains cur new -> stretched cur new = cur.
Proof.
  intros [Hlo Hhi]. unfold stretched. destruct cur as [c0 c1]. cbn [fst snd] in *.
  f_equal.
  - unfold Qmin, GenericMinMax.gmin. apply (proj1 (Qle_alt _ _)) in Hlo.
    destruct (c0 ?= fst new) eqn:E; congruence.
  - unfold Qmax, GenericMinMax.gmax. apply (proj1 (Qle_alt _ _)) in Hhi.
    rewrite <- Qcompare_antisym in Hhi.
    destruct (c1 ?= snd new) eqn:E; cbn in Hhi; congruence.
Qed.

Lemma stretched_swap (cur a b : Q * Q) :
  same_interval (stretched (stretched cur a) b) (stretched (stretched cur b) a).
Proof.
  unfold same_interval, stretched. cbn [fst snd]. split.
  - rewrite <- !Q.min_assoc. by rewrite (Q.min_comm (fst a)).
  - rewrite <- !Q.max_assoc. by rewrite (Q.max_comm (snd a)).
Qed.

Lemma limits_after_stretch (xlims ylims : Q * Q) (w : World) :
  limits (after (stretch xlims ylims) w)
    = (stretched (ax_xlim (w_ax w)) xlims, stretched (ax_ylim (w_ax w)) ylims).
Proof. by rewrite stretch_after. Qed.

(** X3.  Stretching twice to the same limits is stretching once, and two
    stretches give the same intervals in either order. *)
Theorem stretch_idempotent_and_commutes (xlims ylims xlims' ylims' : Q * Q)
    (w : World) :
  let s := stretch xlims ylims in
  let s' := stretch xlims' ylims' in
  limits (after s (after s w)) = limits (after s w) /\
  same_interval (fst (limits (after s' (after s w))))
                (fst (limits (after s (after s' w)))) /\
  same_interval (snd (limits (after s' (after s w))))
                (snd (limits (after s (after s' w)))).
Proof.
  cbv zeta. rewrite !limits_after_stretch. cbn [fst snd].
  change (ax_xlim (w_ax (after (stretch xlims ylims) w)))
    with (fst (limits (after (stretch xlims ylims) w))).
  change (ax_ylim (w_ax (after (stretch xlims ylims) w)))
    with (snd (limits (after (stretch xlims ylims) w))).
  change (ax_xlim (w_ax (after (stretch xlims' ylims') w)))
    with (fst (limits (after (stretch xlims' ylims') w))).
  change (ax_ylim (w_ax (after (stretch xlims' ylims') w)))
    with (snd (limits (after (stretch xlims' ylims') w))).
  rewrite !limits_after_stretch. cbn [fst snd].
  rewrite !stretched_idem.
  split; [done |]. split; apply stretched_swap.
Qed.

(** X4.  Limits that already contain the new ones are left as they are. *)
Theorem stretch_within_limits (xlims ylims : Q * Q) (w : World) :
  contains (ax_xlim (w_ax w)) xlims ->
  contains (ax_ylim (w_ax w)) ylims ->
  limits (after (stretch xlims ylims) w) = limits w.
Proof.
  intros Hx Hy. rewrite limits_after_stretch.
  by rewrite (stretched_within _ _ Hx), (stretched_within _ _ Hy).
Qed.

(** X5.  [stretch] sets both limits, which turns autoscaling off for both
    axes: a call of [ax.autoscale_view] after it moves neither axis. *)
Theorem stretch_turns_autoscale_off (xlims ylims : Q * Q) (scalex scaley : bool)
    (w : World) :
  let w' := after (stretch xlims ylims) w in
  ax_autoscalex_on (w_ax w') = false /\
  ax_autoscaley_on (w_ax w') = false /\
  limits (after (autoscale_view scalex scaley) w') = limits w'.
Proof.
  cbv zeta. rewrite stretch_after. unfold limits, after, autoscale_view.
  rewrite run_bind, run_emit. cbv beta iota zeta. rewrite run_modify. cbn.
  by rewrite ?andb_false_r.
Qed.

(** ** [simple_hist]: failure, and evenly spaced edges *)

(** X6.  A histogram of [n] bins has [n + 1] edges.  [simple_hist] returns
    when there is a bin, and raises IndexError when there is none. *)
Theorem simple_hist_succeeds_iff_bins (arr bins density weights : Data) :
  length (snd (np_histogram arr bins density weights))
    = S (length (fst (np_histogram arr bins density weights))) ->
  (is_ok (simple_hist arr bins density weights) = true
     <-> fst (np_histogram arr bins density weights) <> []) /\
  (fst (np_histogram arr bins density weights) = []
     -> simple_hist arr bins density weights = Raise IndexError).
Proof.
  destruct (np_histogram arr bins density weights) as [heights edges] eqn:Hnp.
  cbn [fst snd]. intros Hlen. destruct heights as [|h heights].
  - rewrite (simple_hist_no_bins _ _ _ _ edges Hnp Hlen). cbn. split; [| done].
    split; [discriminate | done].
  - destruct (simple_hist_ok arr bins density weights (h :: heights) edges
                Hnp Hlen) as (b0 & b1 & xmin & xmax & hmax & ps & Hrun & _);
      [done |].
    rewrite Hrun. cbn. split; [| done]. split; done.
Qed.


(** ** The arguments of [interactive_scatter] *)

(** X8.  Preparing a color or a size twice is preparing it once; a function
    is left as it is; a prepared array keeps its numbers, and gains at
    most a leading axis of length one. *)
Theorem prep_idempotent (a : Arg) (f : Callable) (arr : ndarray) :
  _prep_color (_prep_color a) = _prep_color a /\
  _prep_size (_prep_size a) = _prep_size a /\
  _prep_color (AFun f) = AFun f /\
  _prep_size (AFun f) = AFun f /\
  exists arr', _prep_color (AVal (DArr arr)) = AVal (DArr arr') /\
    flat arr' = flat arr /\
    (shape arr' = shape arr \/ shape arr' = 1%nat :: shape arr).
Proof.
  split; [| split; [| split; [| split]]]; try reflexivity.
  - destruct a as [[| | | |arr0| | |]|f0]; try reflexivity.
    unfold _prep_color.
    destruct (Nat.eqb (ndim arr0) 2 && _)%bool eqn:E; [| by rewrite E].
    apply andb_true_iff in E as [E _]. apply Nat.eqb_eq in E.
    unfold ndim in *. cbn [shape flat length]. by rewrite E.
  - destruct a as [[| | | |arr0|l|l|l]|f0]; try reflexivity; cbn;
      by destruct (forallb is_number l) eqn:E; cbn; rewrite ?E.
  - unfold _prep_color. destruct (_ && _)%bool; eexists; split; try done.
    + split; [done | by right].
    + split; [done | by left].
Qed.

(** X9.  The flag for the x axis is set only when the flag for the y axis is
    set for the same argument, and the two flags differ only on a string
    that is not [stretch] and reads [stretch] in lower case. *)
Theorem scatter_stretch_x_implies_y (lim : Lim) :
  implb (scatter_stretch_x lim) (scatter_stretch_y lim) = true /\
  (scatter_stretch_x lim = scatter_stretch_y lim \/
   exists s, lim = LimStr s /\ s <> "stretch"%string /\
             lower s = "stretch"%string).
Proof.
  destruct lim as [s|lo hi]; [| split; [done | by left]].
  unfold scatter_stretch_x, scatter_stretch_y, lim_is_str, lim_eq_str.
  destruct (decide (s = "stretch"%string)) as [->|Hne].
  - split; [reflexivity | by left].
  - rewrite (bool_decide_false _ Hne).
    split; [reflexivity |].
    case_bool_decide; [right; by exists s | by left].
Qed.

(** ** The params that [interactive_imshow] selects *)

Lemma select_params_facts (ks : list string) (params : Params) :
  (is_ok (select_params ks params) = true
     <-> forall k, k ∈ ks -> is_Some (params !! k)) /\
  (forall selected, select_params ks params = Ok selected ->
     forall k, selected !! k = if decide (k ∈ ks) then params !! k else None) /\
  (is_ok (select_params ks params) = false ->
     select_params ks params = Raise KeyError).
Proof.
  induction ks as [|a ks (IH1 & IH2 & IH3)]; cbn [select_params].
  - split; [| split].
    + split; [intros _ k Hk; by apply elem_of_nil in Hk | done].
    + intros sel [= <-] k. by rewrite lookup_empty.
    + discriminate.
  - destruct (params !! a) as [v|] eqn:Ha.
    + destruct (select_params ks params) as [rest|ex] eqn:Hsel; cbn.
      * split; [| split].
        -- split; [| done]. intros _ k [->|Hk]%elem_of_cons; [by eexists |].
           by apply IH1.
        -- intros sel [= <-] k. destruct (decide (k = a)) as [->|Hne].
           ++ rewrite lookup_insert_eq.
              by rewrite (decide_True (P := a ∈ a :: ks)) by (by left).
           ++ rewrite lookup_insert_ne by done. rewrite (IH2 rest eq_refl k).
              destruct (decide (k ∈ ks)) as [Hin|Hin].
              ** by rewrite (decide_True (P := k ∈ a :: ks)) by (by right).
              ** rewrite (decide_False (P := k ∈ a :: ks)); [done |].
                 intros [->|?]%elem_of_cons; done.
        -- discriminate.
      * split; [| split].
        -- split; [discriminate |]. intros H.
           assert (is_ok (Raise (A:=Params) ex) = true) as Hok; [| done].
           apply IH1. intros k Hk. apply H. by right.
        -- discriminate.
        -- intros _. by rewrite (IH3 eq_refl).
    + split; [| split].
      * split; [discriminate |]. intros H.
        destruct (H a) as [v Hv]; [by left | congruence].
      * discriminate.
      * done.
Qed.

(** X10.  The dict comprehension over the keyword arguments returns when every
    name has an entry in the params, and then holds those entries and no
    other; it raises KeyError otherwise. *)
Theorem select_params_spec (ks : list string) (params : Params) :
  (is_ok (select_params ks params) = true
     <-> forall k, k ∈ ks -> is_Some (params !! k)) /\
  (forall selected, select_params ks params = Ok selected ->
     forall k, selected !! k = if decide (k ∈ ks) then params !! k else None) /\
  (is_ok (select_params ks params) = false ->
     select_params ks params = Raise KeyError).
Proof. apply select_params_facts. Qed.

(** ** Reading the other fields of an updated world *)

Lemma w_pc_with_ax f w : w_pc (with_ax f w) = w_pc w.
Proof. reflexivity. Qed.

Lemma w_pc_with_line f w : w_pc (with_line f w) = w_pc w.
Proof. reflexivity. Qed.

Lemma w_pc_with_pc f w : w_pc (with_pc f w) = f (w_pc w).
Proof. reflexivity. Qed.

Lemma w_pc_with_scats f w : w_pc (with_scats f w) = w_pc w.
Proof. reflexivity. Qed.

Lemma w_pc_with_cache f w : w_pc (with_cache f w) = w_pc w.
Proof. reflexivity. Qed.

Lemma w_pc_with_im f w : w_pc (with_im f w) = w_pc w.
Proof. reflexivity. Qed.

Lemma w_pc_with_controls f w : w_pc (with_controls f w) = w_pc w.
Proof. reflexivity. Qed.

Lemma w_pc_with_log f w : w_pc (with_log f w) = w_pc w.
Proof. reflexivity. Qed.

Lemma w_scats_with_ax f w : w_scats (with_ax f w) = w_scats w.
Proof. reflexivity. Qed.

Lemma w_scats_with_line f w : w_scats (with_line f w) = w_scats w.
Proof. reflexivity. Qed.

Lemma w_scats_with_pc f w : w_scats (with_pc f w) = w_scats w.
Proof. reflexivity. Qed.

Lemma w_scats_with_scats f w : w_scats (with_scats f w) = f (w_scats w).
Proof. reflexivity. Qed.

Lemma w_scats_with_cache f w : w_scats (with_cache f w) = w_scats w.
Proof. reflexivity. Qed.

Lemma w_scats_with_im f w : w_scats (with_im f w) = w_scats w.
Proof. reflexivity. Qed.

Lemma w_scats_with_controls f w : w_scats (with_controls f w) = w_scats w.
Proof. reflexivity. Qed.

Lemma w_scats_with_log f w : w_scats (with_log f w) = w_scats w.
Proof. reflexivity. Qed.

Lemma w_cache_with_ax f w : w_cache (with_ax f w) = w_cache w.
Proof. reflexivity. Qed.

Lemma w_cache_with_line f w : w_cache (with_line f w) = w_cache w.
Proof. reflexivity. Qed.

Lemma w_cache_with_pc f w : w_cache (with_pc f w) = w_cache w.
Proof. reflexivity. Qed.

Lemma w_cache_with_scats f w : w_cache (with_scats f w) = w_cache w.
Proof. reflexivity. Qed.

Lemma w_cache_with_cache f w : w_cache (with_cache f w) = f (w_cache w).
Proof. reflexivity. Qed.

Lemma w_cache_with_im f w : w_cache (with_im f w) = w_cache w.
Proof. reflexivity. Qed.

Lemma w_cache_with_controls f w : w_cache (with_controls f w) = w_cache w.
Proof. reflexivity. Qed.

Lemma w_cache_with_log f w : w_cache (with_log f w) = w_cache w.
Proof. reflexivity. Qed.

Lemma w_im_with_ax f w : w_im (with_ax f w) = w_im w.
Proof. reflexivity. Qed.

Lemma w_im_with_line f w : w_im (with_line f w) = w_im w.
Proof. reflexivity. Qed.

Lemma w_im_with_pc f w : w_im (with_pc f w) = w_im w.
Proof. reflexivity. Qed.

Lemma w_im_with_scats f w : w_im (with_scats f w) = w_im w.
Proof. reflexivity. Qed.

Lemma w_im_with_cache f w : w_im (with_cache f w) = w_im w.
Proof. reflexivity. Qed.

Lemma w_im_with_im f w : w_im (with_im f w) = f (w_im w).
Proof. reflexivity. Qed.

Lemma w_im_with_controls f w : w_im (with_controls f w) = w_im w.
Proof. reflexivity. Qed.

Lemma w_im_with_log f w : w_im (with_log f w) = w_im w.
Proof. reflexivity. Qed.

Lemma w_line_with_ax f w : w_line (with_ax f w) = w_line w.
Proof. reflexivity. Qed.

Lemma w_line_with_line f w : w_line (with_line f w) = f (w_line w).
Proof. reflexivity. Qed.

Lemma w_line_with_pc f w : w_line (with_pc f w) = w_line w.
Proof. reflexivity. Qed.

Lemma w_line_with_scats f w : w_line (with_scats f w) = w_line w.
Proof. reflexivity. Qed.

Lemma w_line_with_cache f w : w_line (with_cache f w) = w_line w.
Proof. reflexivity. Qed.

Lemma w_line_with_im f w : w_line (with_im f w) = w_line w.
Proof. reflexivity. Qed.

Lemma w_line_with_controls f w : w_line (with_controls f w) = w_line w.
Proof. reflexivity. Qed.

Lemma w_line_with_log f w : w_line (with_log f w) = w_line w.
Proof. reflexivity. Qed.

#[local] Hint Rewrite
  w_pc_with_ax
  w_pc_with_line
  w_pc_with_pc
  w_pc_with_scats
  w_pc_with_cache
  w_pc_with_im
  w_pc_with_controls
  w_pc_with_log
  w_scats_with_ax
  w_scats_with_line
  w_scats_with_pc
  w_scats_with_scats
  w_scats_with_cache
  w_scats_with_im
  w_scats_with_controls
  w_scats_with_log
  w_cache_with_ax
  w_cache_with_line
  w_cache_with_pc
  w_cache_with_scats
  w_cache_with_cache
  w_cache_with_im
  w_cache_with_controls
  w_cache_with_log
  w_im_with_ax
  w_im_with_line
  w_im_with_pc
  w_im_with_scats
  w_im_with_cache
  w_im_with_im
  w_im_with_controls
  w_im_with_log
  w_line_with_ax
  w_line_with_line
  w_line_with_pc
  w_line_with_scats
  w_line_with_cache
  w_line_with_im
  w_line_with_controls
  w_line_with_log : world.

(** ** Runs that succeed *)

Lemma run_bind_ok {A B} (m : M A) (k : A -> M B) (w w1 : World) (a : A) :
  m w = (Ok a, w1) -> (m ≫= k) w = k a w1.
Proof. intros H. by rewrite run_bind, H. Qed.


(** ** [interactive_hist] and its update *)


Lemma interactive_hist_world (f : FuncArg) (density bins weights : Data)
    (ax : bool) (slider_formats : Data) (display force_ipywidgets : bool)
    (play_buttons play_button_pos : Data) (controls display_controls : bool)
    (kwargs : Params) (w : World) (f0 : Callable) :
  atleast_1d f = [f0] ->
  let cs := bound_controls kwargs controls (w_controls w) in
  let a := add_collection_effect (w_ax w) in
  let update := hist_update (mk_hist_env [f0] density bins weights) in
  let w' := after (interactive_hist f density bins weights ax slider_formats
                     display force_ipywidgets play_buttons play_button_pos
                     controls display_controls kwargs) w in
  let calls :=
    w_log w
    ++ setup_calls ax force_ipywidgets controls display_controls
                   slider_formats kwargs
    ++ [add_collection_call;
        register_function_call update (keys (ctl_params cs))] in
  match simple_hist (fn_call f0 [] (ctl_params cs)) bins density weights with
  | Ok (new_x, new_y, new_patches) =>
      w_ax w' = mk_axes new_x new_y (ax_dataLim a) false false (ax_title a) /\
      w_pc w' = new_patches /\
      w_log w' = calls ++ [set_xlim_call new_x; set_ylim_call new_y]
  | Raise _ => w_ax w' = a /\ w_pc w' = [] /\ w_log w' = calls
  end.
Proof.
  intros Hf. cbn zeta. unfold after, interactive_hist. rewrite Hf.
  cbn [length Nat.eqb negb].
  do 10 step. autorewrite with world.
  rewrite run_bind, run_lift_res. cbn [first_func lookup list_lookup].
  cbv beta iota.
  rewrite run_bind, run_lift_res.
  set (upd := hist_update _).
  set (cs := bound_controls kwargs controls (w_controls w)).
  cbn [ctl_params].
  destruct (simple_hist _ _ _ _) as [[[new_x new_y] new_patches]|e];
    cbv beta iota.
  - step. rewrite run_bind, run_set_xlim. cbv beta iota.
    rewrite run_bind, run_set_ylim. cbv beta iota. rewrite run_ret.
    cbn [snd]. autorewrite with world. unfold setup_calls.
    rewrite <- ?app_assoc. cbn [app].
    repeat split; reflexivity.
  - cbn [snd]. autorewrite with world. unfold setup_calls.
    rewrite <- ?app_assoc. cbn [app].
    repeat split; reflexivity.
Qed.


(** X13.  A first histogram without bins: [interactive_hist] raises IndexError
    after it has added the empty collection and registered its callback,
    and sets no limits. *)
Theorem interactive_hist_no_bins_raises_late (f : FuncArg)
    (density bins weights : Data)
    (ax : bool) (slider_formats : Data) (display force_ipywidgets : bool)
    (play_buttons play_button_pos : Data) (controls display_controls : bool)
    (kwargs : Params) (w : World) (f0 : Callable) (edges : list Q) :
  atleast_1d f = [f0] ->
  np_histogram
    (fn_call f0 [] (ctl_params (bound_controls kwargs controls (w_controls w))))
    bins density weights = ([], edges) ->
  length edges = 1%nat ->
  let m := interactive_hist f density bins weights ax slider_formats display
             force_ipywidgets play_buttons play_button_pos controls
             display_controls kwargs in
  result m w = Raise IndexError /\
  w_pc (after m w) = [] /\
  (exists names,
     last (ctl_registry (w_controls (after m w)))
       = Some (hist_update (mk_hist_env [f0] density bins weights), names)) /\
  logged pick_set_xlim (after m w) = logged pick_set_xlim w /\
  logged pick_set_ylim (after m w) = logged pick_set_ylim w.
Proof.
  intros Hf Hnp Hlen. cbv zeta.
  pose proof (simple_hist_no_bins _ _ _ _ edges Hnp Hlen) as Hs.
  pose proof (interactive_hist_world f density bins weights ax slider_formats
                display force_ipywidgets play_buttons play_button_pos controls
                display_controls kwargs w f0 Hf) as Hw.
  destruct (interactive_hist_run f density bins weights ax slider_formats
              display force_ipywidgets play_buttons play_button_pos controls
              display_controls kwargs w f0 Hf) as (w' & Hrun & Hc & _).
  cbv zeta in Hw, Hrun. rewrite Hs in Hw, Hrun.
  destruct Hw as (Hax & Hpc & Hlog).
  split; [unfold result; by rewrite Hrun |].
  split; [done |].
  split.
  - eexists. unfold after. rewrite Hrun. cbn [snd]. rewrite Hc.
    cbn [ctl_registry]. apply last_snoc.
  - unfold logged. rewrite Hlog, !omap_app. cbn. by rewrite !app_nil_r.
Qed.


(** ** The cache of [interactive_scatter] *)

#[local] Instance cache_grows_refl : Reflexive cache_grows.
Proof. intros w. unfold cache_grows. reflexivity. Qed.

#[local] Instance cache_grows_trans : Transitive cache_grows.
Proof. intros a b c Hab Hbc. unfold cache_grows in *. by etrans. Qed.


Lemma run_check_callable_xy_hit (f : Callable) (x y : Data) (params : Params)
    (w : World) (v : Data) :
  w_cache w !! fn_id f = Some v ->
  check_callable_xy (AFun f) x y params w = (Ok v, w).
Proof.
  intros H. unfold check_callable_xy. rewrite run_bind, run_get_world.
  cbv beta iota. by rewrite H.
Qed.

Lemma run_check_callable_xy_miss (f : Callable) (x y : Data) (params : Params)
    (w : World) :
  w_cache w !! fn_id f = None ->
  check_callable_xy (AFun f) x y params w
    = (Ok (fn_call f [x; y] params),
       with_cache (fun c => <[fn_id f := fn_call f [x; y] params]> c) w).
Proof.
  intros H. unfold check_callable_xy. rewrite run_bind, run_get_world.
  cbv beta iota. by rewrite H.
Qed.

Lemma run_check_callable_alpha_hit (f : Callable) (params : Params)
    (w : World) (v : Data) :
  w_cache w !! fn_id f = Some v ->
  check_callable_alpha (AFun f) params w = (Ok v, w).
Proof.
  intros H. unfold check_callable_alpha. rewrite run_bind, run_get_world.
  cbv beta iota. by rewrite H.
Qed.

(** What a look-up through the cache returns, and what it leaves in the
    cache. *)
Lemma check_callable_xy_run (arg : Arg) (x y : Data) (params : Params)
    (w : World) :
  exists v w',
    check_callable_xy arg x y params w = (Ok v, w') /\
    cache_grows w w' /\ cached arg (w_cache w') = Some v /\
    w' = with_cache (fun _ => w_cache w') w.
Proof.
  destruct arg as [d|f].
  - exists d, w. repeat split; try done. by destruct w.
  - destruct (w_cache w !! fn_id f) as [v|] eqn:E.
    + exists v, w. rewrite (run_check_callable_xy_hit _ _ _ _ _ _ E).
      repeat split; try done. by destruct w.
    + eexists _, _. rewrite (run_check_callable_xy_miss _ _ _ _ _ E).
      split; [reflexivity |]. split; [| split].
      * unfold cache_grows. cbn. by apply insert_subseteq.
      * cbn. by rewrite lookup_insert_eq.
      * by destruct w.
Qed.

Lemma check_callable_alpha_run (alpha_ : Arg) (params : Params) (w : World) :
  exists v w',
    check_callable_alpha alpha_ params w = (Ok v, w') /\
    cache_grows w w' /\ cached alpha_ (w_cache w') = Some v /\
    w' = with_cache (fun _ => w_cache w') w.
Proof.
  destruct alpha_ as [d|f].
  - exists d, w. repeat split; try done. by destruct w.
  - unfold check_callable_alpha. rewrite run_bind, run_get_world.
    cbv beta iota.
    destruct (w_cache w !! fn_id f) as [v|] eqn:E.
    + exists v, w. repeat split; try done. by destruct w.
    + eexists _, _. split; [reflexivity |]. split; [| split].
      * unfold cache_grows. cbn. by apply insert_subseteq.
      * cbn. by rewrite lookup_insert_eq.
      * by destruct w.
Qed.

(** X15.  A function looked up a second time is not called again: the second
    look-up, whatever its [x], [y] and params, and the look-up of an alpha
    return what the first call returned. *)
Theorem check_callable_shares_cache (f : Callable) (x y x' y' : Data)
    (params params' : Params) (w : World) :
  w_cache w !! fn_id f = None ->
  let v := fn_call f [x; y] params in
  let m := (a ← check_callable_xy (AFun f) x y params;
            b ← check_callable_xy (AFun f) x' y' params';
            c ← check_callable_alpha (AFun f) params';
            mret (a, b, c)) in
  result m w = Ok (v, v, v) /\
  w_cache (after m w) = <[fn_id f := v]> (w_cache w).
Proof.
  intros Hmiss. cbv zeta. unfold result, after.
  rewrite run_bind, (run_check_callable_xy_miss _ _ _ _ _ Hmiss).
  cbv beta iota.
  set (v := fn_call f [x; y] params).
  set (w1 := with_cache _ w).
  assert (w_cache w1 !! fn_id f = Some v) as Hhit.
  { unfold w1. cbn. by rewrite lookup_insert_eq. }
  rewrite run_bind, (run_check_callable_xy_hit _ _ _ _ _ _ Hhit).
  cbv beta iota.
  rewrite run_bind, (run_check_callable_alpha_hit _ _ _ _ Hhit).
  cbv beta iota. rewrite run_ret. by split.
Qed.

(** ** The update of [interactive_scatter] *)

Lemma scatter_update_unfold (e : ScatterEnv) :
  interactive_scatter_update e =
    (match s_title e with
     | Some title => params ← read_params; set_title (str_format title params)
     | None => mret tt
     end;;
     w ← get_world;
     for_each
       (zip (seq 0 (length (w_scats w)))
            (zip6 (s_X e) (s_Y e) (s_cols e) (s_sizes e) (s_edgecolors e)
                  (s_alphas e)))
       (scatter_update_step e);;
     modify (with_cache (fun _ => ∅));;
     autoscale_view true true).
Proof. reflexivity. Qed.


Lemma modify_scat_keeps {X} (obs : World -> X) (i : nat)
    (f : PathCollection -> PathCollection) :
  (forall g w, obs (with_scats g w) = obs w) ->
  keeps obs (modify_scat i f).
Proof. intros H. apply keeps_modify. intros w. apply H. Qed.

Lemma modify_scat_keeps_labels (i : nat) (f : PathCollection -> PathCollection) :
  (forall sc, sc_label (f sc) = sc_label sc) ->
  keeps (fun w => sc_label <$> w_scats w) (modify_scat i f).
Proof.
  intros Hf. apply keeps_modify. intros w. cbn.
  destruct (w_scats w !! i) as [sc|] eqn:E; [| done].
  rewrite list_fmap_insert, Hf. apply list_insert_id.
  by rewrite list_lookup_fmap, E.
Qed.

Ltac scats_leaf :=
  first [ apply modify_scat_keeps_labels; intros ?; reflexivity
        | (intros ?; reflexivity) ].

Lemma check_callable_xy_keeps {X} (obs : World -> X) (arg : Arg) (x y : Data)
    (params : Params) :
  (forall g w, obs (with_cache g w) = obs w) ->
  keeps obs (check_callable_xy arg x y params) /\
  succeeds (check_callable_xy arg x y params).
Proof.
  intros H. split; [| apply check_callable_xy_frame].
  intros w. destruct (check_callable_xy_run arg x y params w)
    as (v & w' & E & _ & _ & Ew).
  unfold after. rewrite E. cbn [snd]. rewrite Ew. apply H.
Qed.

Lemma check_callable_alpha_keeps {X} (obs : World -> X) (alpha_ : Arg)
    (params : Params) :
  (forall g w, obs (with_cache g w) = obs w) ->
  keeps obs (check_callable_alpha alpha_ params) /\
  succeeds (check_callable_alpha alpha_ params).
Proof.
  intros H. split; [| apply check_callable_alpha_frame].
  intros w. destruct (check_callable_alpha_run alpha_ params w)
    as (v & w' & E & _ & _ & Ew).
  unfold after. rewrite E. cbn [snd]. rewrite Ew. apply H.
Qed.

Lemma scatter_update_labels (e : ScatterEnv) :
  keeps (fun w => sc_label <$> w_scats w) (interactive_scatter_update e).
Proof.
  rewrite scatter_update_unfold.
  apply keeps_bind; [destruct (s_title e); unfold_ops; frame scats_leaf |].
  intros _. apply keeps_bind; [intros ?; reflexivity |]. intros w0.
  apply keeps_bind; [| intros _; unfold_ops; frame scats_leaf].
  apply keeps_for_each. intros (i & x_ & y_ & c_ & s_ & ec_ & alpha_).
  unfold scatter_update_step.
  apply keeps_bind; [intros ?; reflexivity |]. intros params.
  apply keeps_bind; [unfold eval_xy_cache; frame scats_leaf |].
  intros [x y].
  apply keeps_bind; [scats_leaf |]. intros _.
  apply keeps_bind; [by apply check_callable_xy_keeps |]. intros c.
  apply keeps_bind; [by apply check_callable_xy_keeps |]. intros s.
  apply keeps_bind; [by apply check_callable_xy_keeps |]. intros ec.
  apply keeps_bind; [by apply check_callable_alpha_keeps |]. intros a.
  apply keeps_bind.
  { destruct (negb (is_none c)); [| apply keeps_ret].
    apply keeps_bind; [| intros ?; scats_leaf].
    destruct (to_rgba_array c); [apply keeps_ret |].
    destruct (scat_cmap c); [apply keeps_ret | intros ?; reflexivity]. }
  intros _.
  apply keeps_bind; [apply keeps_when; scats_leaf |]. intros _.
  apply keeps_bind; [apply keeps_when; scats_leaf |]. intros _.
  apply keeps_bind; [apply keeps_when; scats_leaf |]. intros _.
  apply keeps_bind; [intros ?; reflexivity |]. intros w1.
  destruct (w_scats w1 !! i); [| apply keeps_ret].
  cbv zeta. unfold emit. frame scats_leaf.
Qed.

Lemma scatter_update_length (e : ScatterEnv) (w : World) :
  length (w_scats (after (interactive_scatter_update e) w))
    = length (w_scats w).
Proof.
  rewrite <- (length_fmap sc_label), (scatter_update_labels e w).
  apply length_fmap.
Qed.

(** X16.  An update adds no collection, removes none, and changes no label,
    whether it returns or raises. *)
Theorem scatter_update_keeps_labels (e : ScatterEnv) (w : World) :
  sc_label <$> w_scats (after (interactive_scatter_update e) w)
    = sc_label <$> w_scats w /\
  length (w_scats (after (interactive_scatter_update e) w))
    = length (w_scats w).
Proof. split; [apply scatter_update_labels | apply scatter_update_length]. Qed.

Lemma bind_ok_inv {A B} (m : M A) (k : A -> M B) (w : World) :
  is_ok (result (m ≫= k) w) = true ->
  exists a w1, m w = (Ok a, w1) /\ (m ≫= k) w = k a w1.
Proof.
  unfold result. rewrite run_bind.
  destruct (m w) as [[a|ex] w1]; [| discriminate]. intros _. by exists a, w1.
Qed.

(** X17.  An update that returns has emptied the cache. *)
Theorem scatter_update_clears_cache (e : ScatterEnv) (w : World) :
  is_ok (result (interactive_scatter_update e) w) = true ->
  w_cache (after (interactive_scatter_update e) w) = ∅.
Proof.
  rewrite scatter_update_unfold. intros H.
  destruct (bind_ok_inv _ _ _ H) as ([] & w1 & _ & E1).
  unfold after. rewrite E1. unfold result in H. rewrite E1 in H.
  rewrite run_bind, run_get_world in *. cbv beta iota in *.
  destruct (bind_ok_inv _ _ _ H) as ([] & w2 & _ & E2).
  rewrite E2. step. unfold autoscale_view. step. rewrite run_modify.
  cbn [snd]. by autorewrite with world.
Qed.







(** ** The collections that [interactive_scatter] creates *)





(** ** The image of [interactive_imshow] *)

Lemma imshow_update_run (e : ImshowEnv) (w : World) :
  interactive_imshow_update e w =
    (Ok tt,
     mk_world
       (match i_title e with
        | Some t =>
            mk_axes (ax_xlim (w_ax w)) (ax_ylim (w_ax w)) (ax_dataLim (w_ax w))
                    (ax_autoscalex_on (w_ax w)) (ax_autoscaley_on (w_ax w))
                    (str_format t (ctl_params (w_controls w)))
        | None => w_ax w
        end)
       (w_line w) (w_pc w) (w_scats w) (w_cache w) (updated_image e w)
       (w_controls w)
       (w_log w ++ title_calls (i_title e) (ctl_params (w_controls w)))).
Proof.
  destruct e as [t X ac vmin vmax], w as [a l pc scats cache [d lo hi] c log].
  unfold interactive_imshow_update, updated_image.
  cbn [i_title i_X i_autoscale_cmap i_vmin i_vmax].
  destruct t, X as [dX|fX], vmin as [dmin|fmin], vmax as [dmax|fmax].
  all: run_fast; cbv beta iota delta [im_data norm_vmin norm_vmax].
  all: rewrite ?app_nil_r; try reflexivity.
  all: match goal with
       | |- context [if ?b then _ else _] => destruct b; try reflexivity
       end.
  all: by destruct a.
Qed.


(** X21.  With [autoscale_cmap] set, [X] a function and neither limit
    given, every update sets the data to the value of [X] and rescales
    the colormap limits to it, unless the data is an RGB(A) image, whose
    limits are left alone. *)
Theorem imshow_update_autoscales (e : ImshowEnv) (w : World) (X : Callable) :
  i_X e = AFun X ->
  i_autoscale_cmap e = true ->
  i_vmin e = AVal DNone ->
  i_vmax e = AVal DNone ->
  let w' := after (interactive_imshow_update e) w in
  let new_data := fn_call X [] (params_of w) in
  im_data (w_im w') = new_data /\
  (norm_vmin (w_im w'), norm_vmax (w_im w'))
    = (if Nat.eqb (data_ndim new_data) 3
       then (norm_vmin (w_im w), norm_vmax (w_im w))
       else norm_autoscale new_data).
Proof.
  intros HX Hac Hmin Hmax. cbv zeta. unfold after, params_of.
  rewrite imshow_update_run. cbn [snd w_im]. unfold updated_image.
  rewrite HX, Hac, Hmin, Hmax. cbn [norm_vmin norm_vmax im_data arg_is_none andb].
  split; [done |]. rewrite !andb_true_r.
  destruct (Nat.eqb _ 3); cbn [negb]; [done |]. by destruct (norm_autoscale _).
Qed.

Lemma select_params_all (kwargs : Params) (f : Data -> Data) (selected : Params) :
  select_params (keys kwargs) (f <$> kwargs) = Ok selected ->
  selected = f <$> kwargs.
Proof.
  intros H. apply map_eq. intros k.
  destruct (select_params_facts (keys kwargs) (f <$> kwargs)) as (_ & Hl & _).
  rewrite (Hl selected H k).
  destruct (decide (k ∈ keys kwargs)) as [Hin|Hin]; [done |].
  rewrite lookup_fmap.
  destruct (kwargs !! k) as [v|] eqn:E; [| done].
  exfalso. apply Hin. apply elem_of_keys. by eexists.
Qed.

(** X22.  [interactive_imshow] evaluates [X] on the params of its own keyword
    arguments only, while its update evaluates [X] on all the params of
    the controls object.  Without a controls object passed in the two
    coincide, and the update run before any control has changed
    reproduces the data of the image. *)
Theorem imshow_creation_selects_params (X : Arg)
    (cmap norm aspect interpolation alpha : Data) (vmin vmax : Arg)
    (origin extent : Data) (autoscale_cmap : bool)
    (filternorm filterrad resample url : Data) (ax : bool)
    (slider_formats : Data) (title : option string)
    (display force_ipywidgets : bool) (play_buttons play_button_pos : Data)
    (controls display_controls : bool) (kwargs : Params) (w : World) :
  let w' :=
    after (interactive_imshow X cmap norm aspect interpolation alpha vmin vmax
             origin extent autoscale_cmap filternorm filterrad resample url
             ax slider_formats title display force_ipywidgets play_buttons
             play_button_pos controls display_controls kwargs) w in
  let update :=
    interactive_imshow_update
      (mk_imshow_env title X autoscale_cmap vmin vmax) in
  exists selected,
    im_data (w_im w') = callable_else_value X selected /\
    (forall k, selected !! k
               = if decide (k ∈ keys kwargs) then params_of w' !! k else None) /\
    im_data (w_im (after update w'))
      = match X with
        | AFun g => fn_call g [] (params_of w')
        | AVal _ => im_data (w_im w')
        end /\
    (controls = false ->
     selected = params_of w' /\
     im_data (w_im (after update w')) = im_data (w_im w')).
Proof.
  cbv zeta.
  destruct (interactive_imshow_run X cmap norm aspect interpolation alpha vmin
              vmax origin extent autoscale_cmap filternorm filterrad resample
              url ax slider_formats title display force_ipywidgets play_buttons
              play_button_pos controls display_controls kwargs w)
    as (w' & selected & Hrun & Hsel & Hc & _ & Him).
  assert (after (interactive_imshow X cmap norm aspect interpolation alpha vmin
                   vmax origin extent autoscale_cmap filternorm filterrad
                   resample url ax slider_formats title display
                   force_ipywidgets play_buttons play_button_pos controls
                   display_controls kwargs) w = w') as ->
    by (unfold after; by rewrite Hrun).
  exists selected. unfold params_of. rewrite Hc, Him. cbn [im_data ctl_params].
  assert (im_data (w_im (after (interactive_imshow_update
                                  (mk_imshow_env title X autoscale_cmap vmin vmax))
                                w'))
          = match X with
            | AFun g =>
                fn_call g []
                  (ctl_params (bound_controls kwargs controls (w_controls w)))
            | AVal _ => callable_else_value X selected
            end) as Hupd.
  { unfold after. rewrite imshow_update_run. cbn [snd w_im].
    unfold updated_image. cbn [i_X im_data]. rewrite Hc, Him.
    by destruct X. }
  split; [done |]. split; [| split; [exact Hupd |]].
  - destruct (select_params_facts (keys kwargs)
                (ctl_params (bound_controls kwargs controls (w_controls w))))
      as (_ & Hl & _).
    apply (Hl selected Hsel).
  - intros ->. cbn [bound_controls ctl_params] in *.
    pose proof (select_params_all _ _ _ Hsel) as ->.
    split; [done |]. rewrite Hupd. by destruct X.
Qed.

(** ** The line of [interactive_plot] *)

Lemma interactive_plot_line (args : list Arg) (xlim ylim : Lim)
    (slider_formats : Data) (title : option string) (ax force_ipywidgets : bool)
    (play_buttons play_button_pos : Data) (controls display_controls : bool)
    (kwargs : Params) (w : World) (pa : PlotArgs) :
  dispatch_args args = Ok (Some pa) ->
  let c := bound_controls (snd (pop_plot_kwargs kwargs)) controls (w_controls w) in
  let w' := after (interactive_plot args xlim ylim slider_formats title ax
                     force_ipywidgets play_buttons play_button_pos controls
                     display_controls kwargs) w in
  w_line w'
    = (if x_and_y pa
       then mk_line (Some (fst (eval_xy (arg_x pa) (arg_y pa) (ctl_params c))))
                    (snd (eval_xy (arg_x pa) (arg_y pa) (ctl_params c)))
       else mk_line None (callable_else_value (arg_y pa) (ctl_params c))) /\
  params_of w' = ctl_params c.
Proof.
  intros Hd. unfold after, interactive_plot, params_of.
  destruct (pop_plot_kwargs kwargs) as [plot_kwargs kwargs'].
  cbn [fst snd]. rewrite run_bind, run_lift_res, Hd. clear Hd args.
  destruct pa as [xy x y fmt]. cbn [x_and_y arg_x arg_y arg_fmt].
  destruct xy, (truthy fmt), xlim as [sx|xlo xhi], ylim as [sy|ylo yhi],
    title as [t|], fig_has_toolbar.
  all: run_fast.
  all: split; reflexivity.
Qed.

(** X23.  The update that [interactive_plot] registers, run before any control
    has changed, reproduces the data of the line. *)
Theorem plot_update_reproduces_line (args : list Arg) (xlim ylim : Lim)
    (slider_formats : Data) (title : option string) (ax force_ipywidgets : bool)
    (play_buttons play_button_pos : Data) (controls display_controls : bool)
    (kwargs : Params) (w : World) :
  (1 <= length args <= 3)%nat ->
  let w' := after (interactive_plot args xlim ylim slider_formats title ax
                     force_ipywidgets play_buttons play_button_pos controls
                     display_controls kwargs) w in
  exists e names,
    last (ctl_registry (w_controls w')) = Some (plot_update e, names) /\
    w_line (after (interactive_plot_update e) w') = w_line w'.
Proof.
  intros Hlen. destruct (dispatch_args_some args Hlen) as [pa Hpa].
  destruct (interactive_plot_run args xlim ylim slider_formats title ax
              force_ipywidgets play_buttons play_button_pos controls
              display_controls kwargs w pa Hpa)
    as (w1 & Hrun & Hc & _).
  destruct (interactive_plot_line args xlim ylim slider_formats title ax
              force_ipywidgets play_buttons play_button_pos controls
              display_controls kwargs w pa Hpa) as [Hline Hparams].
  cbv zeta in *. unfold after at 1 in Hline. unfold after at 1 in Hparams.
  unfold after at 1 3 4. rewrite Hrun in *. cbn [snd] in *.
  eexists _, _. split; [rewrite Hc; cbn [ctl_registry]; apply last_snoc |].
  unfold after. rewrite plot_update_run. cbn [snd w_line].
  unfold updated_line. cbn [p_x_and_y p_x p_y]. unfold params_of in Hparams.
  rewrite Hparams, Hline. by destruct (x_and_y pa).
Qed.

(** ** The title *)

(** X24.  Every update sets the title at most once: with a title template, to
    the template formatted with the params it runs on, also when the
    update raises; without one, never. *)
Theorem update_sets_title_from_params (f : Callback) (w : World) :
  logged pick_set_title (after (run_callback f) w)
    = logged pick_set_title w
      ++ match callback_title f with
         | Some t => [str_format t (params_of w)]
         | None => []
         end.
Proof.
  destruct f as [e|e|e|e]; cbn [run_callback callback_title].
  - unfold after, logged, params_of. rewrite plot_update_run. cbn [snd w_log].
    rewrite !omap_app. cbn [omap pick_set_title].
    rewrite !omap_policy_calls_none by done.
    destruct (p_title e); cbn; by rewrite ?app_nil_r.
  - rewrite app_nil_r.
    assert (keeps (logged pick_set_title) (interactive_hist_update e)) as Hk;
      [| apply Hk].
    unfold interactive_hist_update. unfold_ops.
    frame logged_leaf.
  - rewrite scatter_update_unfold.
    assert (forall m : M unit, keeps (logged pick_set_title) m ->
              logged pick_set_title
                (after (match s_title e with
                        | Some title =>
                            params ← read_params;
                            set_title (str_format title params)
                        | None => mret tt
                        end;; m) w)
              = logged pick_set_title w
                ++ match s_title e with
                   | Some t => [str_format t (params_of w)]
                   | None => []
                   end) as H.
    { intros m Hm. unfold after. destruct (s_title e) as [t|].
      - rewrite run_bind. step. rewrite run_set_title. cbv beta iota.
        match goal with |- context [m ?W] => specialize (Hm W) end.
        unfold after in Hm. rewrite Hm. unfold logged.
        autorewrite with world. rewrite omap_app. reflexivity.
      - step. specialize (Hm w). unfold after in Hm. rewrite Hm.
        by rewrite app_nil_r. }
    apply H.
    apply keeps_bind; [intros ?; reflexivity |]. intros w0.
    apply keeps_bind; [| intros _; unfold_ops; frame logged_leaf].
    apply keeps_for_each. intros (i & x_ & y_ & c_ & s_ & ec_ & alpha_).
    unfold scatter_update_step. unfold_ops. frame logged_leaf.
  - unfold after, logged, params_of. rewrite imshow_update_run. cbn [snd w_log].
    rewrite omap_app. by destruct (i_title e).
Qed.

(** ** [interactive_plot_factory] *)

Lemma not_plot_kwarg (k : string) :
  bool_decide (k ∈ plot_kwargs_list) = false ->
  forall kwargs : Params,
    fst (pop_plot_kwargs kwargs) !! k = None /\
    snd (pop_plot_kwargs kwargs) !! k = kwargs !! k.
Proof.
  intros H kwargs. apply bool_decide_eq_false in H.
  destruct (pop_plot_kwargs_lookup kwargs k) as [H1 H2].
  rewrite H1, H2. by rewrite !decide_False.
Qed.

(** X25.  The deprecated factory passes [x], [slider_format_string],
    [plot_kwargs] and [display=False] on as keyword arguments that name no
    parameter of [interactive_plot]: they reach [gogogo_controls] as
    parameters to bind to controls, [x] is not the x data of the line and
    [plot_kwargs] is not handed to [ax.plot].  A keyword argument
    [display] or [force_ipywidgets] of the factory is a TypeError. *)
Theorem interactive_plot_factory_keywords (ax : bool) (f : Arg) (x : Data)
    (xlim ylim : Lim) (slider_format_string plot_kwargs : Data)
    (title : option string) (use_ipywidgets : Data)
    (play_buttons play_button_pos : Data) (kwargs : Params) (w : World) :
  let m := interactive_plot_factory ax f x xlim ylim slider_format_string
             plot_kwargs title use_ipywidgets play_buttons play_button_pos
             kwargs in
  (is_Some (kwargs !! "display"%string) \/
   is_Some (kwargs !! "force_ipywidgets"%string) ->
   m w = (Raise TypeError, w)) /\
  (kwargs !! "display"%string = None ->
   kwargs !! "force_ipywidgets"%string = None ->
   exists controls_kwargs line_kwargs,
     logged pick_controls_kwargs (after m w)
       = logged pick_controls_kwargs w ++ [controls_kwargs] /\
     controls_kwargs !! "x"%string = Some x /\
     controls_kwargs !! "slider_format_string"%string
       = Some slider_format_string /\
     controls_kwargs !! "plot_kwargs"%string = Some plot_kwargs /\
     controls_kwargs !! "display"%string = Some (DBool false) /\
     logged pick_plot_x (after m w) = logged pick_plot_x w ++ [None] /\
     logged pick_plot_kwargs (after m w)
       = logged pick_plot_kwargs w ++ [line_kwargs] /\
     (forall k, line_kwargs !! k
                = if decide (k ∈ plot_kwargs_list) then kwargs !! k else None) /\
     result m w = last_children (w_controls (after m w))).
Proof.
  cbv zeta. unfold interactive_plot_factory. split.
  - intros H. by rewrite bool_decide_true.
  - intros Hd Hf. rewrite bool_decide_false.
    2:{ rewrite Hd, Hf. intros [[? ?]|[? ?]]; discriminate. }
    cbv zeta.
    set (keywords := <["x"%string := x]> _).
    set (sf := default DNone _).
    set (controls := match keywords !! "controls"%string with
                     | Some DNone | None => false
                     | Some _ => true
                     end).
    set (dc := match keywords !! "display_controls"%string with
               | Some d => truthy (AVal d)
               | None => true
               end).
    set (kw := delete "slider_formats"%string _).
    destruct (interactive_plot_run [f] xlim ylim sf title ax
                (truthy (AVal use_ipywidgets)) play_buttons play_button_pos
                controls dc kw w
                (mk_plot_args false (AVal DNone) f (AVal DNone)) eq_refl)
      as (w1 & Hrun & _ & Hlog & _).
    cbn [x_and_y arg_x arg_y arg_fmt truthy] in Hlog.
    assert (forall X (pick : Call -> option X),
              (forall t, pick (set_title_call t) = None) ->
              (forall l, pick (set_xlim_call l) = None) ->
              (forall l, pick (set_ylim_call l) = None) ->
              pick push_current_call = None ->
              pick notebook_backend_call = None ->
              (forall a b, pick (gogogo_figure_call a b) = None) ->
              (forall a b, pick (create_slider_format_dict_call a b) = None) ->
              (forall a b, pick (register_function_call a b) = None) ->
              omap pick (w_log w1)
              = omap pick (w_log w)
                ++ omap pick
                     [gogogo_controls_call (snd (pop_plot_kwargs kw)) controls dc;
                      plot_call None (callable_else_value f
                          (ctl_params (bound_controls (snd (pop_plot_kwargs kw))
                                         controls (w_controls w))))
                        None (fst (pop_plot_kwargs kw))]) as Hpick.
    { intros X pick Ht Hx Hy Hp Hn Hg Hc Hr. rewrite Hlog, !omap_app.
      unfold setup_calls. cbn [omap list_omap]. rewrite Hn, Hg, Hc, Hr.
      rewrite (omap_title_calls pick) by done.
      destruct xlim, ylim, fig_has_toolbar; cbn [fixed_call omap list_omap];
        rewrite ?Hx, ?Hy, ?Hp, ?app_nil_r; cbn [app];
        destruct (pick (gogogo_controls_call _ _ _)), (pick (plot_call _ _ _ _));
        reflexivity. }
    assert (after (interactive_plot [f] xlim ylim sf title ax
                     (truthy (AVal use_ipywidgets)) play_buttons play_button_pos
                     controls dc kw ≫= fun returned =>
                   match returned with
                   | ReturnControls =>
                       w ← get_world; lift_res (last_children (w_controls w))
                   | ReturnNone => raise TypeError
                   end) w = w1) as Hafter.
    { unfold after. rewrite (run_bind_ok _ _ _ _ _ Hrun).
      rewrite run_bind, run_get_world. reflexivity. }
    rewrite Hafter.
    exists (snd (pop_plot_kwargs kw)), (fst (pop_plot_kwargs kw)).
    unfold logged.
    rewrite (Hpick _ pick_controls_kwargs), (Hpick _ pick_plot_x),
      (Hpick _ pick_plot_kwargs) by done.
    cbn [omap list_omap pick_controls_kwargs pick_plot_x pick_plot_kwargs].
    assert (forall k v, bool_decide (k ∈ plot_kwargs_list) = false ->
              k <> "slider_formats"%string -> k <> "controls"%string ->
              k <> "display_controls"%string ->
              keywords !! k = Some v ->
              snd (pop_plot_kwargs kw) !! k = Some v) as Hkw.
    { intros k v Hk H1 H2 H3 Hv.
      rewrite (proj2 (not_plot_kwarg k Hk kw)). unfold kw.
      by rewrite !lookup_delete_ne. }
    split; [done |].
    split; [apply Hkw; try done; unfold keywords; by simplify_map_eq |].
    split; [apply Hkw; try done; unfold keywords; by simplify_map_eq |].
    split; [apply Hkw; try done; unfold keywords; by simplify_map_eq |].
    split; [apply Hkw; try done; unfold keywords; by simplify_map_eq |].
    split; [done |]. split; [done |].
    split.
    + intros k. rewrite (proj1 (pop_plot_kwargs_lookup kw k)).
      destruct (decide (k ∈ plot_kwargs_list)) as [Hin|]; [| done].
      assert (k <> "slider_formats"%string /\ k <> "controls"%string /\
              k <> "display_controls"%string /\ k <> "x"%string /\
              k <> "slider_format_string"%string /\ k <> "plot_kwargs"%string /\
              k <> "display"%string) as (? & ? & ? & ? & ? & ? & ?).
      { repeat split; intros ->;
          by apply (bool_decide_pack _), Is_true_true in Hin. }
      unfold kw, keywords. by rewrite !lookup_delete_ne, !lookup_insert_ne.
    + unfold result. rewrite (run_bind_ok _ _ _ _ _ Hrun).
      rewrite run_bind, run_get_world. reflexivity.
Qed.

(** ** A limit that is neither a policy nor a pair *)

Lemma plot_update_other_x (e : PlotEnv) :
  lim_eq_str (p_xlim e) "auto" = false ->
  lim_eq_str (p_xlim e) "stretch" = false ->
  keeps (fun w => (ax_xlim (w_ax w), logged pick_set_xlim w))
        (interactive_plot_update e).
Proof.
  intros Ha Hs w. unfold after. rewrite plot_update_run.
  cbn [snd w_ax ax_xlim]. unfold logged. cbn [w_log].
  unfold policy_lims at 1. rewrite Ha, Hs, !omap_app.
  rewrite !omap_policy_calls_none, omap_title_calls by (try done; congruence).
  cbn. by rewrite !app_nil_r.
Qed.

Lemma plot_update_other_y (e : PlotEnv) :
  lim_eq_str (p_ylim e) "auto" = false ->
  lim_eq_str (p_ylim e) "stretch" = false ->
  keeps (fun w => (ax_ylim (w_ax w), logged pick_set_ylim w))
        (interactive_plot_update e).
Proof.
  intros Ha Hs w. unfold after. rewrite plot_update_run.
  cbn [snd w_ax ax_ylim]. unfold logged. cbn [w_log].
  unfold policy_lims. rewrite Ha, Hs, !omap_app.
  rewrite !omap_policy_calls_none, omap_title_calls by (try done; congruence).
  cbn. by rewrite !app_nil_r.
Qed.

(** X26.  A limit argument that is neither ["auto"] nor ["stretch"], such as a
    policy name spelled with a capital letter, is taken without complaint
    and acts as no policy at all: no update moves that axis or sets its
    limits. *)
Theorem other_policy_keeps_limits (e : PlotEnv)
    (changes : list (string * Data)) (w : World) :
  let w' := after (update_cycles (plot_update e) changes) w in
  (lim_eq_str (p_xlim e) "auto" = false ->
   lim_eq_str (p_xlim e) "stretch" = false ->
   ax_xlim (w_ax w') = ax_xlim (w_ax w) /\
   logged pick_set_xlim w' = logged pick_set_xlim w) /\
  (lim_eq_str (p_ylim e) "auto" = false ->
   lim_eq_str (p_ylim e) "stretch" = false ->
   ax_ylim (w_ax w') = ax_ylim (w_ax w) /\
   logged pick_set_ylim w' = logged pick_set_ylim w).
Proof.
  cbv zeta. split; intros Ha Hs.
  - assert (keeps (fun w => (ax_xlim (w_ax w), logged pick_set_xlim w))
                  (update_cycles (plot_update e) changes)) as Hk.
    { apply keeps_update_cycles; [done |]. by apply plot_update_other_x. }
    specialize (Hk w). by injection Hk as -> ->.
  - assert (keeps (fun w => (ax_ylim (w_ax w), logged pick_set_ylim w))
                  (update_cycles (plot_update e) changes)) as Hk.
    { apply keeps_update_cycles; [done |]. by apply plot_update_other_y. }
    specialize (Hk w). by injection Hk as -> ->.
Qed.

(** X27.  A limit given to [interactive_plot] as a string, whatever the
    string, is not applied at creation: no [set_xlim] or [set_ylim] call is
    made for that axis. *)
Theorem string_limit_sets_nothing_at_creation (args : list Arg)
    (xlim ylim : Lim) (slider_formats : Data) (title : option string)
    (ax force_ipywidgets : bool) (play_buttons play_button_pos : Data)
    (controls display_controls : bool) (kwargs : Params) (w : World) :
  (1 <= length args <= 3)%nat ->
  let w' := after (interactive_plot args xlim ylim slider_formats title ax
                     force_ipywidgets play_buttons play_button_pos controls
                     display_controls kwargs) w in
  (lim_is_str xlim = true ->
   logged pick_set_xlim w' = logged pick_set_xlim w) /\
  (lim_is_str ylim = true ->
   logged pick_set_ylim w' = logged pick_set_ylim w).
Proof.
  intros Hlen. destruct (dispatch_args_some args Hlen) as [pa Hpa].
  destruct (interactive_plot_run args xlim ylim slider_formats title ax
              force_ipywidgets play_buttons play_button_pos controls
              display_controls kwargs w pa Hpa)
    as (w1 & Hrun & _ & Hlog & _).
  cbv zeta. unfold after. rewrite Hrun. cbn [snd]. unfold logged.
  rewrite Hlog, !omap_app. cbn [setup_calls omap list_omap].
  split; intros Hs.
  - rewrite (omap_title_calls pick_set_xlim) by done.
    destruct xlim; [| discriminate].
    destruct ylim, fig_has_toolbar; cbn; by rewrite ?app_nil_r.
  - rewrite (omap_title_calls pick_set_ylim) by done.
    destruct ylim; [| discriminate].
    destruct xlim, fig_has_toolbar; cbn; by rewrite ?app_nil_r.
Qed.

End pyplot.

(** * The properties on the sample inputs *)


Lemma fixed_limits_set_once_witness :
  let create :=
    interactive_plot Sample.plot_effect true Sample.str_format true
      Sample.slider_format_dict Sample.control_value
      [AFun Sample.f] (LimTuple 0 10) (LimStr "stretch") DNone None false
      false DNone DNone false true Sample.kwargs in
  let e := mk_plot_env false (AVal DNone) (AFun Sample.f) (LimTuple 0 10)
                       (LimStr "stretch") None in
  let cycles :=
    update_cycles Sample.relim_bbox Sample.autoscale_xlim
      Sample.autoscale_ylim Sample.get_datalim Sample.to_rgba_array
      Sample.scat_cmap Sample.norm_autoscale Sample.np_histogram
      Sample.str_format Sample.update_datalim (plot_update e)
      [("tau"%string, DNum 1); ("tau"%string, DNum 2)] in
  (logged pick_set_xlim (after create Sample.world)
     = logged pick_set_xlim Sample.world ++ [(0, 10)] /\
   ax_xlim (w_ax (after create Sample.world)) = (0, 10)) /\
  (logged pick_set_xlim (after cycles (after create Sample.world))
     = logged pick_set_xlim (after create Sample.world) /\
   ax_xlim (w_ax (after cycles (after create Sample.world)))
     = ax_xlim (w_ax (after create Sample.world))).
Proof.
  cbn zeta.
  destruct (fixed_limits_set_once Sample.relim_bbox Sample.autoscale_xlim
              Sample.autoscale_ylim Sample.plot_effect Sample.get_datalim
              Sample.to_rgba_array Sample.scat_cmap Sample.norm_autoscale
              true Sample.np_histogram Sample.str_format true
              Sample.slider_format_dict Sample.control_value
              Sample.update_datalim)
    as (Hcreate & Hcycles).
  split.
  - apply (proj1 (Hcreate [AFun Sample.f] (LimTuple 0 10) (LimStr "stretch")
                    DNone None false false DNone DNone false true
                    Sample.kwargs Sample.world
                    (conj (le_n 1) (le_S 1 2 (le_S 1 1 (le_n 1)))))).
    reflexivity.
  - apply (proj1 (Hcycles _ _ _) 0 10). reflexivity.
Defined.

Lemma update_registered_once_witness :
  let create :=
    interactive_plot Sample.plot_effect true Sample.str_format true
      Sample.slider_format_dict Sample.control_value
      [AFun Sample.f] (LimStr "stretch") (LimStr "stretch") DNone None false
      false DNone DNone false true Sample.kwargs in
  let hist :=
    interactive_hist Sample.add_collection_effect Sample.np_histogram true
      Sample.slider_format_dict Sample.control_value
      (OneFunc Sample.f) DNone DNone DNone false DNone true false DNone DNone
      false true Sample.kwargs in
  result create Sample.world = Ok ReturnControls /\
  (exists pa, dispatch_args [AFun Sample.f] = Ok (Some pa) /\
     registers_once create Sample.world
       (plot_update (mk_plot_env (x_and_y pa) (arg_x pa) (arg_y pa)
                       (LimStr "stretch") (LimStr "stretch") None))) /\
  registers_once hist Sample.world
    (hist_update (mk_hist_env [Sample.f] DNone DNone DNone)).
Proof.
  cbn zeta.
  destruct (update_registered_once Sample.plot_effect
              Sample.add_collection_effect Sample.scatter_effect
              Sample.imshow_effect true Sample.np_histogram Sample.str_format
              true Sample.slider_format_dict Sample.control_value
              Sample.broadcast_many)
    as (Hplot & Hhist & _ & _).
  pose proof (Hplot [AFun Sample.f] (LimStr "stretch") (LimStr "stretch")
                DNone None false false DNone DNone false true Sample.kwargs
                Sample.world) as [Hret Hreg].
  split; [| split].
  - apply Hret. split; [apply le_n | apply le_S, le_S, le_n].
  - apply Hreg; [discriminate | reflexivity].
  - apply (proj2 (Hhist (OneFunc Sample.f) DNone DNone DNone false DNone true
                    false DNone DNone false true Sample.kwargs Sample.world)).
    reflexivity.
Defined.


Lemma simple_hist_limits_and_patches_witness :
  exists b0 b1 xmin xmax hmax new_patches,
    simple_hist Sample.np_histogram DNone DNone DNone DNone
      = Ok ((xmin, xmax), (0, hmax * (105 # 100)), new_patches) /\
    [0; 1; 3] !! 0%nat = Some b0 /\ [0; 1; 3] !! 1%nat = Some b1 /\
    is_min xmin [0; 1; 3] /\ is_max xmax [0; 1; 3] /\ is_max hmax [1; 3] /\
    length new_patches = 2%nat /\
    (forall i h b, [1; 3] !! i = Some h -> [0; 1; 3] !! i = Some b ->
       new_patches !! i = Some (mk_rectangle (b, 0) (b1 - b0) h)) /\
    (forall r, r ∈ new_patches -> rect_width r = b1 - b0).
Proof.
  apply (simple_hist_limits_and_patches Sample.np_histogram DNone DNone DNone
           DNone [1; 3] [0; 1; 3]).
  - reflexivity.
  - reflexivity.
  - apply le_S, le_n.
Defined.



(** ** The compositions, failures and edge cases on the sample inputs *)


Lemma stretch_within_limits_witness :
  limits (after (stretch (1 # 4, 1 # 2) (0, 1)) Sample.world)
    = limits Sample.world.
Proof.
  apply stretch_within_limits; split; cbn; intros H; discriminate H.
Defined.

Lemma simple_hist_succeeds_iff_bins_witness :
  (is_ok (simple_hist Sample.np_histogram DNone DNone DNone DNone) = true
     <-> fst (Sample.np_histogram DNone DNone DNone DNone) <> []) /\
  (fst (Sample.np_histogram DNone DNone DNone DNone) = []
     -> simple_hist Sample.np_histogram DNone DNone DNone DNone
        = Raise IndexError).
Proof.
  exact (simple_hist_succeeds_iff_bins Sample.np_histogram DNone DNone DNone
           DNone eq_refl).
Defined.


Lemma select_params_spec_witness :
  is_ok (select_params ["tau"%string] Sample.kwargs) = true /\
  select_params ["sigma"%string] Sample.kwargs = Raise KeyError.
Proof.
  split.
  - apply (proj1 (select_params_spec ["tau"%string] Sample.kwargs)).
    intros k Hk. apply list_elem_of_singleton in Hk as ->. by eexists.
  - exact (proj2 (proj2 (select_params_spec ["sigma"%string] Sample.kwargs))
             eq_refl).
Defined.



Lemma interactive_hist_no_bins_raises_late_witness :
  let m :=
    interactive_hist Sample.add_collection_effect
      (fun _ _ _ _ => ([], [0])) true
      Sample.slider_format_dict Sample.control_value (OneFunc Sample.f) DNone
      DNone DNone false DNone true false DNone DNone false true Sample.kwargs in
  result m Sample.world = Raise IndexError /\
  w_pc (after m Sample.world) = [] /\
  (exists names,
     last (ctl_registry (w_controls (after m Sample.world)))
       = Some (hist_update (mk_hist_env [Sample.f] DNone DNone DNone), names)) /\
  logged pick_set_xlim (after m Sample.world)
    = logged pick_set_xlim Sample.world /\
  logged pick_set_ylim (after m Sample.world)
    = logged pick_set_ylim Sample.world.
Proof.
  exact (interactive_hist_no_bins_raises_late Sample.add_collection_effect
           (fun _ _ _ _ => ([], [0])) true Sample.slider_format_dict
           Sample.control_value (OneFunc Sample.f) DNone DNone DNone false
           DNone true false DNone DNone false true Sample.kwargs Sample.world
           Sample.f [0] eq_refl eq_refl eq_refl).
Defined.


Lemma check_callable_shares_cache_witness :
  let v := fn_call Sample.f [DNum 1; DNum 2] Sample.kwargs in
  let m := (a ← check_callable_xy (AFun Sample.f) (DNum 1) (DNum 2) Sample.kwargs;
            b ← check_callable_xy (AFun Sample.f) (DNum 3) (DNum 4) ∅;
            c ← check_callable_alpha (AFun Sample.f) ∅;
            mret (a, b, c)) in
  result m Sample.world = Ok (v, v, v) /\
  w_cache (after m Sample.world) = <[fn_id Sample.f := v]> (w_cache Sample.world).
Proof.
  exact (check_callable_shares_cache Sample.f (DNum 1) (DNum 2) (DNum 3)
           (DNum 4) Sample.kwargs ∅ Sample.world eq_refl).
Defined.

Lemma scatter_update_clears_cache_witness :
  let e := mk_scatter_env None [AVal (DNum 1)] [AVal (DNum 2)] [AFun Sample.f]
             [AVal DNone] [AVal DNone] [AVal DNone] true true in
  let w := with_scats (fun _ => [mk_scat (DNone, DNone) DNone DNone DNone DNone
                                         (AVal DNone)]) Sample.world in
  w_cache (after (interactive_scatter_update Sample.autoscale_xlim
                    Sample.autoscale_ylim Sample.get_datalim
                    Sample.to_rgba_array Sample.scat_cmap Sample.str_format
                    Sample.update_datalim e) w) = ∅.
Proof.
  apply scatter_update_clears_cache. reflexivity.
Defined.



Lemma imshow_update_autoscales_witness :
  let e := mk_imshow_env None (AFun Sample.f) true (AVal DNone) (AVal DNone) in
  let w' := after (interactive_imshow_update Sample.norm_autoscale
                     Sample.str_format e) Sample.world in
  let new_data := fn_call Sample.f [] (params_of Sample.world) in
  im_data (w_im w') = new_data /\
  (norm_vmin (w_im w'), norm_vmax (w_im w'))
    = (if Nat.eqb (data_ndim new_data) 3
       then (norm_vmin (w_im Sample.world), norm_vmax (w_im Sample.world))
       else Sample.norm_autoscale new_data).
Proof.
  exact (imshow_update_autoscales Sample.norm_autoscale Sample.str_format
           (mk_imshow_env None (AFun Sample.f) true (AVal DNone) (AVal DNone))
           Sample.world Sample.f eq_refl eq_refl eq_refl eq_refl).
Defined.

Lemma imshow_creation_selects_params_witness :
  let w' :=
    after (interactive_imshow Sample.imshow_effect Sample.str_format true
             Sample.slider_format_dict Sample.control_value
             (AFun Sample.f) DNone DNone DNone DNone DNone (AVal DNone)
             (AVal DNone) DNone DNone true DNone DNone DNone DNone false
             DNone None true false DNone DNone false true Sample.kwargs)
          Sample.world in
  let update :=
    interactive_imshow_update Sample.norm_autoscale Sample.str_format
      (mk_imshow_env None (AFun Sample.f) true (AVal DNone) (AVal DNone)) in
  im_data (w_im (after update w')) = im_data (w_im w').
Proof.
  destruct (imshow_creation_selects_params Sample.imshow_effect
              Sample.norm_autoscale Sample.str_format true
              Sample.slider_format_dict Sample.control_value
              (AFun Sample.f) DNone DNone DNone DNone DNone (AVal DNone)
              (AVal DNone) DNone DNone true DNone DNone DNone DNone false
              DNone None true false DNone DNone false true Sample.kwargs
              Sample.world) as (selected & _ & _ & _ & H).
  exact (proj2 (H eq_refl)).
Defined.

Lemma plot_update_reproduces_line_witness :
  let w' :=
    after (interactive_plot Sample.plot_effect true Sample.str_format true
             Sample.slider_format_dict Sample.control_value
             [AFun Sample.f] (LimStr "stretch") (LimStr "stretch") DNone None
             false false DNone DNone false true Sample.kwargs) Sample.world in
  exists e names,
    last (ctl_registry (w_controls w')) = Some (plot_update e, names) /\
    w_line (after (interactive_plot_update Sample.relim_bbox
                     Sample.autoscale_xlim Sample.autoscale_ylim
                     Sample.str_format e) w') = w_line w'.
Proof.
  apply (plot_update_reproduces_line Sample.relim_bbox Sample.autoscale_xlim
           Sample.autoscale_ylim Sample.plot_effect true Sample.str_format true
           Sample.slider_format_dict Sample.control_value [AFun Sample.f]).
  cbn. lia.
Defined.

Lemma interactive_plot_factory_keywords_witness :
  let run kwargs :=
    interactive_plot_factory Sample.plot_effect true Sample.str_format true
      Sample.slider_format_dict Sample.control_value (fun _ => Ok DNone)
      true (AFun Sample.f) (DNum 1) (LimStr "stretch") (LimStr "stretch")
      DNone DNone None DNone DNone DNone kwargs in
  run (<["display"%string := DBool true]> Sample.kwargs) Sample.world
    = (Raise TypeError, Sample.world) /\
  exists controls_kwargs,
    logged pick_controls_kwargs (after (run Sample.kwargs) Sample.world)
      = logged pick_controls_kwargs Sample.world ++ [controls_kwargs] /\
    controls_kwargs !! "x"%string = Some (DNum 1) /\
    logged pick_plot_x (after (run Sample.kwargs) Sample.world)
      = logged pick_plot_x Sample.world ++ [None].
Proof.
  split.
  - apply (proj1 (interactive_plot_factory_keywords Sample.plot_effect true
                    Sample.str_format true Sample.slider_format_dict
                    Sample.control_value (fun _ => Ok DNone) true
                    (AFun Sample.f) (DNum 1) (LimStr "stretch")
                    (LimStr "stretch") DNone DNone None DNone DNone DNone
                    (<["display"%string := DBool true]> Sample.kwargs)
                    Sample.world)).
    left. by eexists.
  - destruct (proj2 (interactive_plot_factory_keywords Sample.plot_effect true
                       Sample.str_format true Sample.slider_format_dict
                       Sample.control_value (fun _ => Ok DNone) true
                       (AFun Sample.f) (DNum 1) (LimStr "stretch")
                       (LimStr "stretch") DNone DNone None DNone DNone DNone
                       Sample.kwargs Sample.world) eq_refl eq_refl)
      as (ckw & lkw & H1 & H2 & _ & _ & _ & H3 & _).
    exists ckw. by repeat split.
Defined.

Lemma other_policy_keeps_limits_witness :
  let e := mk_plot_env false (AVal DNone) (AFun Sample.f) (LimStr "Stretch")
                       (LimStr "stretch") None in
  let w' :=
    after (update_cycles Sample.relim_bbox Sample.autoscale_xlim
             Sample.autoscale_ylim Sample.get_datalim Sample.to_rgba_array
             Sample.scat_cmap Sample.norm_autoscale Sample.np_histogram
             Sample.str_format Sample.update_datalim (plot_update e)
             [("tau"%string, DNum 1); ("tau"%string, DNum 2)])
          Sample.world in
  ax_xlim (w_ax w') = ax_xlim (w_ax Sample.world) /\
  logged pick_set_xlim w' = logged pick_set_xlim Sample.world.
Proof.
  exact (proj1 (other_policy_keeps_limits Sample.relim_bbox
                  Sample.autoscale_xlim Sample.autoscale_ylim
                  Sample.get_datalim Sample.to_rgba_array Sample.scat_cmap
                  Sample.norm_autoscale Sample.np_histogram Sample.str_format
                  Sample.update_datalim
                  (mk_plot_env false (AVal DNone) (AFun Sample.f)
                     (LimStr "Stretch") (LimStr "stretch") None)
                  [("tau"%string, DNum 1); ("tau"%string, DNum 2)]
                  Sample.world) eq_refl eq_refl).
Defined.

Lemma string_limit_sets_nothing_at_creation_witness :
  let w' :=
    after (interactive_plot Sample.plot_effect true Sample.str_format true
             Sample.slider_format_dict Sample.control_value
             [AFun Sample.f] (LimStr "fixed") (LimTuple 0 1) DNone None
             false false DNone DNone false true Sample.kwargs) Sample.world in
  logged pick_set_xlim w' = logged pick_set_xlim Sample.world.
Proof.
  refine (proj1 (string_limit_sets_nothing_at_creation Sample.plot_effect true
                   Sample.str_format true Sample.slider_format_dict
                   Sample.control_value [AFun Sample.f] (LimStr "fixed")
                   (LimTuple 0 1) DNone None false false DNone DNone false true
                   Sample.kwargs Sample.world _) eq_refl).
  cbn. lia.
Defined.
